(** * Media Metadata Toolkit: a shallow embedding of [media_metadata.py]

    The development follows the layout of the Python module: strings and
    paths, the exception hierarchy, Python values and the UTF-8 codec, the
    base class ([MediaMetadataBase]), and then the properties.

    Conventions.
    - A Python [str] is the list of its code points ([pystr]); a [bytes]
      object is a [list byte].
    - A [Path] is the list of its components; [Path.name] is the last one. *)

From Stdlib Require Import ZArith NArith Strings.String Strings.Ascii Strings.Byte.
From stdpp Require Import base option list gmap strings.

Local Open Scope N_scope.
Set Warnings "-register-all".

(* ===================================================================== *)
(** ** Strings *)
(* ===================================================================== *)

Abbreviation pystr := (list N).

(** [u "abc"] is the Python literal ["abc"]. *)
Definition u (s : string) : pystr :=
  (λ a : ascii, N_of_ascii a) <$> list_ascii_of_string s.

(** [str.lower] on one code point.  Exact on U+0000..U+00FF and on the two
    letter-like signs whose lower case is a Latin-1 letter; every other code
    point is left as it is (none of them lowers to ASCII text, so look-ups
    in the ASCII extension tables are not affected). *)
Definition lower_cp (c : N) : N :=
  if (0x41 <=? c) && (c <=? 0x5A) then c + 32
  else if (0xC0 <=? c) && (c <=? 0xDE) && negb (c =? 0xD7) then c + 32
  else if c =? 0x212A then 0x6B
  else if c =? 0x212B then 0xE5
  else c.

Definition str_lower (s : pystr) : pystr := lower_cp <$> s.

Definition dot : N := 0x2E.

(** [s.rfind(".")], [None] standing for [-1]. *)
Fixpoint rfind_dot (s : pystr) : option nat :=
  match s with
  | [] => None
  | c :: t =>
      match rfind_dot t with
      | Some i => Some (S i)
      | None => if c =? dot then Some 0%nat else None
      end
  end.

(* ===================================================================== *)
(** ** Paths (pathlib.PurePath) *)
(* ===================================================================== *)

Abbreviation Path := (list (list N)).

Definition path_name (p : Path) : pystr := List.last p [].

Definition path_parent (p : Path) : Path := removelast p.

(** [p / name] *)
Definition path_join (p : Path) (name : pystr) : Path := p ++ [name].

(** [p.with_name(name)] for a path that has a name. *)
Definition with_name (p : Path) (name : pystr) : Path := removelast p ++ [name].

(** [PurePath.suffix]:
    [i = name.rfind('.'); name[i:] if 0 < i < len(name) - 1 else ''] *)
Definition path_suffix (p : Path) : pystr :=
  let name := path_name p in
  match rfind_dot name with
  | Some i =>
      if (0 <? i)%nat && (i <? length name - 1)%nat then drop i name else []
  | None => []
  end.

(** [PurePath.stem]: [name[:i]] under the same test, else [name]. *)
Definition path_stem (p : Path) : pystr :=
  let name := path_name p in
  match rfind_dot name with
  | Some i =>
      if (0 <? i)%nat && (i <? length name - 1)%nat then take i name else name
  | None => name
  end.

(* ===================================================================== *)
(** ** Media kinds and the extension tables *)
(* ===================================================================== *)

Inductive MediaKind := KImage | KPdf | KAudioVideo | KUnsupported.

(** [MediaMetadataBase.SUPPORTED_EXTENSIONS], in declaration order. *)
Definition SUPPORTED_EXTENSIONS : list (pystr * list pystr) :=
  [ (u "image", [u ".jpg"; u ".jpeg"; u ".png"; u ".gif"; u ".tiff"; u ".bmp"; u ".webp"]);
    (u "pdf",   [u ".pdf"]);
    (u "audio", [u ".mp3"; u ".wav"; u ".flac"; u ".aac"; u ".ogg"]);
    (u "video", [u ".mp4"; u ".mov"; u ".avi"; u ".mkv"; u ".webm"]) ].

(** [d.get(key, [])] on the table. *)
Fixpoint table_get (key : pystr) (d : list (pystr * list pystr)) : list pystr :=
  match d with
  | [] => []
  | (k, v) :: rest => if bool_decide (k = key) then v else table_get key rest
  end.

(** [ext in exts] *)
Definition str_in (ext : pystr) (exts : list pystr) : bool :=
  bool_decide (ext ∈ exts).

(** [_get_extension]: [Path(file_path).suffix.lower()] *)
Definition _get_extension (file_path : Path) : pystr :=
  str_lower (path_suffix file_path).

(** [_is_supported]; an empty [media_type] string is falsy, like [None]. *)
Definition _is_supported (file_path : Path) (media_type : option pystr) : bool :=
  let ext := _get_extension file_path in
  match media_type with
  | Some (c :: t) => str_in ext (table_get (c :: t) SUPPORTED_EXTENSIONS)
  | _ => existsb (λ kv, str_in ext kv.2) SUPPORTED_EXTENSIONS
  end.

(** The [if]/[elif] chain of [_extract_from_file] on the extension. *)
Definition classify (ext : pystr) : MediaKind :=
  if str_in ext (table_get (u "image") SUPPORTED_EXTENSIONS) then KImage
  else if str_in ext (table_get (u "pdf") SUPPORTED_EXTENSIONS) then KPdf
  else if str_in ext (table_get (u "audio") SUPPORTED_EXTENSIONS
                      ++ table_get (u "video") SUPPORTED_EXTENSIONS)
  then KAudioVideo
  else KUnsupported.

Definition classify_path (file_path : Path) : MediaKind :=
  classify (_get_extension file_path).

(** Every extension listed in some table. *)
Definition all_extensions : list pystr :=
  concat (snd <$> SUPPORTED_EXTENSIONS).

(* ===================================================================== *)
(** ** Exceptions *)
(* ===================================================================== *)

(** The classes the module defines or can meet.  All of them derive from
    [Exception]; asynchronous interrupts are outside the model. *)
Inductive ExnClass :=
  | MediaMetadataError | FileOperationError | NetworkError | InvalidInputError
  | UnsupportedMediaError | MetadataRemovalError
  | OSError | FileNotFoundError | FileExistsError | IsADirectoryError
  | NotADirectoryError | PermissionError
  | TypeError | ValueError | AttributeError | UnicodeDecodeError
  | RecursionError | UnidentifiedImageError | RequestException.

(** An exception object: its class, the literal part of its message and the
    exception it was raised [from]. *)
Inductive exn := Exn (cls : ExnClass) (text : string) (cause : option exn).

Definition exn_class (e : exn) : ExnClass := let 'Exn c _ _ := e in c.
Definition exn_cause (e : exn) : option exn := let 'Exn _ _ c := e in c.

Global Instance ExnClass_eq_dec : EqDecision ExnClass.
Proof. solve_decision. Defined.

(** [isinstance(e, MediaMetadataError)]: the base class and its subclasses. *)
Definition is_domain_error (c : ExnClass) : bool :=
  match c with
  | MediaMetadataError | FileOperationError | NetworkError | InvalidInputError
  | UnsupportedMediaError | MetadataRemovalError => true
  | _ => false
  end.

(** The result of evaluating an expression or a call. *)
Inductive Res (A : Type) := Ok (a : A) | Raise (e : exn).
Global Arguments Ok {A} a.
Global Arguments Raise {A} e.

Definition res_map {A B} (f : A → B) (r : Res A) : Res B :=
  match r with Ok a => Ok (f a) | Raise e => Raise e end.

(* ===================================================================== *)
(** ** Python values *)
(* ===================================================================== *)

Inductive pyval :=
  | VNone
  | VBool (b : bool)
  | VInt (z : Z)
  | VFloat (mantissa exponent : Z)
  | VStr (s : pystr)
  | VBytes (b : list byte)
  | VList (l : list pyval)
  | VTuple (l : list pyval)
  | VDict (d : list (pyval * pyval)).

(** A metadata record, [Dict[str, Any]]. *)
Abbreviation Dict := (gmap (list N) pyval).

(** [d.update(other)] *)
Definition dict_update (d other : Dict) : Dict := other ∪ d.

(* ===================================================================== *)
(** ** The UTF-8 codec: [bytes.decode("utf-8", errors=...)] *)
(* ===================================================================== *)

Inductive ErrorMode := Strict | Replace.

(** What the decoder finds at the head of the input: a character encoded on
    [len] bytes, or an ill-formed sequence of [len] bytes. *)
Inductive Utf8Step := Char (cp : N) (len : nat) | Bad (len : nat).

Definition is_cont (b : N) : bool := (0x80 <=? b) && (b <=? 0xBF).

Definition cont_bits (b : N) : N := N.land b 0x3F.

(** One step of the decoder on a non-empty input whose first byte is [b0]:
    well-formed sequences are those of the Unicode standard (no overlong
    forms, no surrogates, nothing above U+10FFFF), and an ill-formed
    sequence extends over its maximal valid prefix. *)
Definition utf8_step (b0 : N) (rest : list N) : Utf8Step :=
  if b0 <? 0x80 then Char b0 1
  else if b0 <? 0xC2 then Bad 1
  else if b0 <? 0xE0 then
    match rest with
    | b1 :: _ =>
        if is_cont b1 then Char (N.shiftl (N.land b0 0x1F) 6 + cont_bits b1) 2
        else Bad 1
    | [] => Bad 1
    end
  else if b0 <? 0xF0 then
    match rest with
    | b1 :: rest1 =>
        if negb (is_cont b1)
           || (if b1 <? 0xA0 then b0 =? 0xE0 else b0 =? 0xED)
        then Bad 1
        else
          match rest1 with
          | b2 :: _ =>
              if is_cont b2
              then Char (N.shiftl (N.land b0 0x0F) 12
                         + N.shiftl (cont_bits b1) 6 + cont_bits b2) 3
              else Bad 2
          | [] => Bad 2
          end
    | [] => Bad 1
    end
  else if b0 <? 0xF5 then
    match rest with
    | b1 :: rest1 =>
        if negb (is_cont b1)
           || (if b1 <? 0x90 then b0 =? 0xF0 else b0 =? 0xF4)
        then Bad 1
        else
          match rest1 with
          | b2 :: rest2 =>
              if negb (is_cont b2) then Bad 2
              else
                match rest2 with
                | b3 :: _ =>
                    if is_cont b3
                    then Char (N.shiftl (N.land b0 0x07) 18
                               + N.shiftl (cont_bits b1) 12
                               + N.shiftl (cont_bits b2) 6 + cont_bits b3) 4
                    else Bad 3
                | [] => Bad 3
                end
          | [] => Bad 2
          end
    | [] => Bad 1
    end
  else Bad 1.

Definition REPLACEMENT_CHARACTER : N := 0xFFFD.

(** The decoding loop.  [skip] counts the bytes of the current sequence
    still to be passed over. *)
Fixpoint utf8_loop (errors : ErrorMode) (skip : nat) (bs : list N) : Res pystr :=
  match bs with
  | [] => Ok []
  | b :: rest =>
      match skip with
      | S k => utf8_loop errors k rest
      | O =>
          match utf8_step b rest with
          | Char cp len => res_map (cons cp) (utf8_loop errors (len - 1) rest)
          | Bad len =>
              match errors with
              | Strict => Raise (Exn UnicodeDecodeError "invalid utf-8" None)
              | Replace =>
                  res_map (cons REPLACEMENT_CHARACTER)
                          (utf8_loop errors (len - 1) rest)
              end
          end
      end
  end.

(** [value.decode("utf-8", errors=...)] *)
Definition bytes_decode (errors : ErrorMode) (value : list byte) : Res pystr :=
  utf8_loop errors 0 (Byte.to_N <$> value).

(* ===================================================================== *)
(** ** The sanitizer: [MediaMetadataBase._clean_metadata_dict] *)
(* ===================================================================== *)

(** The body of the loop, for one value. *)
Definition clean_value (value : pyval) : pyval :=
  match value with
  | VNone => VStr (u "N/A")
  | VStr [] => VStr (u "Empty String")
  | VList [] => VList []
  | VDict [] => VDict []
  | VBytes b =>
      match bytes_decode Replace b with
      | Ok s => VStr s
      | Raise e =>
          match exn_class e with
          | UnicodeDecodeError => VStr (u "Binary Data")
          | _ => VNone (* not reached: the decoder raises nothing else *)
          end
      end
  | _ => value
  end.

(** [cleaned = {}; for key, value in metadata.items(): cleaned[key] = ...] *)
Definition _clean_metadata_dict (metadata : Dict) : Dict :=
  map_fold (λ key value cleaned, <[key := clean_value value]> cleaned) ∅ metadata.

(* ===================================================================== *)
(** ** The logger: [MediaMetadataLogger] *)
(* ===================================================================== *)

Inductive Level := DEBUG | INFO | WARNING | ERROR | CRITICAL.

Definition level_no (l : Level) : nat :=
  match l with
  | DEBUG => 10 | INFO => 20 | WARNING => 30 | ERROR => 40 | CRITICAL => 50
  end%nat.

(** The messages the module logs, one constructor per format string. *)
Inductive LogMsg :=
  | MsgOperationStart (operation : pystr)
      (* "Starting operation: {operation}" *)
  | MsgOperationEnd (operation : pystr) (success : bool)
      (* "Operation {operation} completed successfully" / "... failed" *)
  | MsgExtractionFailed (e : exn)
      (* "Metadata extraction failed: {e}" *)
  | MsgTempNotDeleted (e : exn)
      (* "Could not delete temp file: {e}" *)
  | MsgSkipped (item : Path) (e : exn)
      (* "Skipped {item}: {e}" *)
  | MsgMetadataRemoved (input_path output_path : Path).
      (* "Metadata removed: {input_path} -> {output_path}" *)

(* ===================================================================== *)
(** ** The world: file system, fault schedule, log *)
(* ===================================================================== *)

Record Attr := {
  readable : bool;          (* os.access(p, os.R_OK) *)
  writable : bool;          (* os.access(p, os.W_OK) *)
  created : pystr;          (* datetime.fromtimestamp(st_ctime).isoformat() *)
  modified : pystr          (* datetime.fromtimestamp(st_mtime).isoformat() *)
}.

Inductive Node := NFile (data : list byte) (attr : Attr) | NDir (attr : Attr).

(** [MediaFileInfo] *)
Record MediaFileInfo := {
  info_path : Path;
  info_size : Z;
  info_created : pystr;
  info_modified : pystr
}.

(** The state a call runs in.  [faults] is the fate of the coming system
    calls that change the file system, one entry per call: [None] lets the
    call proceed, [Some e] makes it fail with [e] and change nothing.  Past
    the end of the schedule no call fails. *)
Record World := {
  fs : gmap (list (list N)) Node;
  faults : list (option exn);
  log : list (Level * LogMsg);
  log_level : Level;
  now_stamp : pystr;        (* str(datetime.now().timestamp()) *)
  now_iso : pystr;          (* the time of creation of new files *)
  _file_info : option MediaFileInfo   (* the extractor's [self._file_info] *)
}.

Definition set_fs (f : gmap Path Node → gmap Path Node) (w : World) : World :=
  {| fs := f (fs w); faults := faults w; log := log w; log_level := log_level w;
     now_stamp := now_stamp w; now_iso := now_iso w; _file_info := _file_info w |}.

Definition set_faults (l : list (option exn)) (w : World) : World :=
  {| fs := fs w; faults := l; log := log w; log_level := log_level w;
     now_stamp := now_stamp w; now_iso := now_iso w; _file_info := _file_info w |}.

Definition add_log (r : Level * LogMsg) (w : World) : World :=
  {| fs := fs w; faults := faults w; log := log w ++ [r]; log_level := log_level w;
     now_stamp := now_stamp w; now_iso := now_iso w; _file_info := _file_info w |}.

Definition set_file_info (i : MediaFileInfo) (w : World) : World :=
  {| fs := fs w; faults := faults w; log := log w; log_level := log_level w;
     now_stamp := now_stamp w; now_iso := now_iso w; _file_info := Some i |}.

(* ===================================================================== *)
(** ** Computations: state passing with exceptions *)
(* ===================================================================== *)

Definition Py (A : Type) : Type := World → Res A * World.

Definition ret {A} (a : A) : Py A := λ w, (Ok a, w).

Definition raise {A} (e : exn) : Py A := λ w, (Raise e, w).

Definition bind {A B} (m : Py A) (k : A → Py B) : Py B :=
  λ w, match m w with
       | (Ok a, w') => k a w'
       | (Raise e, w') => (Raise e, w')
       end.

Notation "'let*' x := m 'in' k" := (bind m (λ x, k))
  (at level 10, x pattern, m at level 100, k at level 200).
Notation "m ;; k" := (bind m (λ _, k))
  (at level 100, k at level 200, right associativity).

(** [try: body  except Exception as e: handler e] *)
Definition try_except {A} (body : Py A) (handler : exn → Py A) : Py A :=
  λ w, match body w with
       | (Ok a, w') => (Ok a, w')
       | (Raise e, w') => handler e w'
       end.

(** [try: body  except C as e: handler e] for the classes selected by [sel]. *)
Definition try_except_if {A} (sel : ExnClass → bool) (body : Py A)
    (handler : exn → Py A) : Py A :=
  try_except body (λ e, if sel (exn_class e) then handler e else raise e).

(** [try: body  finally: final].  An exception of [final] replaces the
    outcome of [body]; otherwise the outcome of [body] stands. *)
Definition try_finally {A} (body : Py A) (final : Py unit) : Py A :=
  λ w, let '(r, w1) := body w in
       match final w1 with
       | (Ok _, w2) => (r, w2)
       | (Raise e, w2) => (Raise e, w2)
       end.

(** [for item in items: acc = body acc item], stopping at an exception. *)
Fixpoint for_each {A B} (items : list A) (acc : B) (body : B → A → Py B) : Py B :=
  match items with
  | [] => ret acc
  | item :: rest => let* acc' := body acc item in for_each rest acc' body
  end.

(** [m] changes the file system at most at [p]. *)
Definition touches_only {A} (p : Path) (m : Py A) : Prop :=
  ∀ w r w', m w = (r, w') → ∀ q, q ≠ p → fs w' !! q = fs w !! q.

(** The ways a block of statements can complete. *)
Inductive Completion (R : Type) := Fallthrough | Returned (r : R) | Raised (e : exn).
Global Arguments Fallthrough {R}.
Global Arguments Returned {R} r.
Global Arguments Raised {R} e.

Definition Stmt (R : Type) : Type := World → Completion R * World.

(** [return m] *)
Definition return_ {R} (m : Py R) : Stmt R :=
  λ w, match m w with
       | (Ok r, w') => (Returned r, w')
       | (Raise e, w') => (Raised e, w')
       end.

(** An expression statement. *)
Definition exec {R} (m : Py unit) : Stmt R :=
  λ w, match m w with
       | (Ok _, w') => (Fallthrough, w')
       | (Raise e, w') => (Raised e, w')
       end.

(** [m; rest]: the rest runs only if [m] falls through. *)
Definition then_ {R} (s1 s2 : Stmt R) : Stmt R :=
  λ w, match s1 w with
       | (Fallthrough, w') => s2 w'
       | other => other
       end.

(** [x = m; rest x] *)
Definition assign {A R} (m : Py A) (rest : A → Stmt R) : Stmt R :=
  λ w, match m w with
       | (Ok a, w') => rest a w'
       | (Raise e, w') => (Raised e, w')
       end.

(** [try: body  except Exception as e: handler e  else: orelse].  The
    [else] block runs when control flows off the end of [body]; it does not
    run when [body] returns or raises. *)
Definition try_except_else {R} (body : Stmt R) (handler : exn → Stmt R)
    (orelse : Stmt R) : Stmt R :=
  λ w, match body w with
       | (Fallthrough, w') => orelse w'
       | (Returned r, w') => (Returned r, w')
       | (Raised e, w') => handler e w'
       end.

(** Calling a function whose body is the block [s]; falling off the end
    returns [None]. *)
Definition call {R} (s : Stmt R) : Py (option R) :=
  λ w, match s w with
       | (Fallthrough, w') => (Ok None, w')
       | (Returned r, w') => (Ok (Some r), w')
       | (Raised e, w') => (Raise e, w')
       end.

(** [logger.<level>(msg)]: the record is emitted if the logger is enabled
    for the level. *)
Definition logger_log (lvl : Level) (msg : LogMsg) : Py unit :=
  λ w, (Ok (),
        if (level_no (log_level w) <=? level_no lvl)%nat then add_log (lvl, msg) w
        else w).

Definition log_operation_start (operation : pystr) : Py unit :=
  logger_log INFO (MsgOperationStart operation).

Definition log_operation_end (operation : pystr) (success : bool) : Py unit :=
  logger_log INFO (MsgOperationEnd operation success).

(* ===================================================================== *)
(** ** File-system primitives (pathlib / os) *)
(* ===================================================================== *)

Definition new_attr (w : World) : Attr :=
  {| readable := true; writable := true; created := now_iso w; modified := now_iso w |}.

(** The node at a path.  The empty path is the working directory. *)
Definition node_at (w : World) (p : Path) : option Node :=
  match p with
  | [] => Some (NDir (new_attr w))
  | _ => fs w !! p
  end.

Definition node_attr (n : Node) : Attr :=
  match n with NFile _ a => a | NDir a => a end.

(** [p.exists()] *)
Definition path_exists (p : Path) : Py bool :=
  λ w, (Ok (bool_decide (is_Some (node_at w p))), w).

(** [p.is_dir()], [p.is_file()]: answered from the file system; like
    [exists] and [os.access] they do not fail. *)
Definition is_dir (p : Path) : Py bool :=
  λ w, (Ok (match node_at w p with Some (NDir _) => true | _ => false end), w).

Definition is_file (p : Path) : Py bool :=
  λ w, (Ok (match node_at w p with Some (NFile _ _) => true | _ => false end), w).

(** [os.access(p, os.R_OK)], [os.access(p, os.W_OK)] *)
Definition access_R (p : Path) : Py bool :=
  λ w, (Ok (match node_at w p with Some n => readable (node_attr n) | None => false end), w).

Definition access_W (p : Path) : Py bool :=
  λ w, (Ok (match node_at w p with Some n => writable (node_attr n) | None => false end), w).

(** The next entry of the fault schedule. *)
Definition fault_point : Py unit :=
  λ w, match faults w with
       | [] => (Ok (), w)
       | None :: rest => (Ok (), set_faults rest w)
       | Some e :: rest => (Raise e, set_faults rest w)
       end.

Definition os_error (c : ExnClass) : exn := Exn c "" None.

(** The content of a file opened for reading. *)
Definition read_bytes (p : Path) : Py (list byte) :=
  λ w, match node_at w p with
       | Some (NFile data _) => (Ok data, w)
       | Some (NDir _) => (Raise (os_error IsADirectoryError), w)
       | None => (Raise (os_error FileNotFoundError), w)
       end.

(** [p.stat()] as [_get_file_info] uses it. *)
Definition stat (p : Path) : Py (Z * Attr) :=
  λ w, match node_at w p with
       | Some (NFile data a) => (Ok (Z.of_nat (length data), a), w)
       | Some (NDir a) => (Ok (4096%Z, a), w)
       | None => (Raise (os_error FileNotFoundError), w)
       end.

(** [p.unlink()] *)
Definition unlink (p : Path) : Py unit :=
  fault_point ;;
  λ w, match node_at w p with
       | Some (NFile _ _) => (Ok (), set_fs (delete p) w)
       | Some (NDir _) => (Raise (os_error IsADirectoryError), w)
       | None => (Raise (os_error FileNotFoundError), w)
       end.

(** [src.rename(dst)] for a file; on POSIX an existing file at [dst] is
    replaced.  Directories are not renamed by this module. *)
Definition rename (src dst : Path) : Py unit :=
  fault_point ;;
  λ w, match node_at w src with
       | Some (NFile data a) =>
           match node_at w dst with
           | Some (NDir _) => (Raise (os_error IsADirectoryError), w)
           | _ =>
               match node_at w (path_parent dst) with
               | Some (NDir _) =>
                   (Ok (), set_fs (λ m, <[dst := NFile data a]> (delete src m)) w)
               | Some (NFile _ _) => (Raise (os_error NotADirectoryError), w)
               | None => (Raise (os_error FileNotFoundError), w)
               end
           end
       | Some (NDir _) => (Raise (os_error OSError), w)
       | None => (Raise (os_error FileNotFoundError), w)
       end.

(** Creating the directories [ps] in turn, each under its parent. *)
Fixpoint make_dirs (ps : list Path) (exist_ok : bool) : Py unit :=
  match ps with
  | [] => ret ()
  | p :: rest =>
      (λ w, match node_at w p with
            | Some (NDir _) =>
                if exist_ok || negb (bool_decide (rest = []))
                then (Ok (), w) else (Raise (os_error FileExistsError), w)
            | Some (NFile _ _) =>
                (Raise (os_error (if bool_decide (rest = []) then FileExistsError
                                  else NotADirectoryError)), w)
            | None =>
                match node_at w (path_parent p) with
                | Some (NDir _) => (Ok (), set_fs (<[p := NDir (new_attr w)]>) w)
                | Some (NFile _ _) => (Raise (os_error NotADirectoryError), w)
                | None => (Raise (os_error FileNotFoundError), w)
                end
            end) ;;
      make_dirs rest exist_ok
  end.

(** The non-empty prefixes of a path, shortest first. *)
Definition ancestors_and_self (p : Path) : list Path :=
  (λ n, take n p) <$> List.seq 1%nat (length p).

(** [p.mkdir(parents=..., exist_ok=...)] *)
Definition mkdir (p : Path) (parents exist_ok : bool) : Py unit :=
  fault_point ;;
  make_dirs (if parents then ancestors_and_self p else [p]) exist_ok.

(** [open(p, "wb")]: the file is created, or truncated if it exists. *)
Definition open_write (p : Path) : Py unit :=
  fault_point ;;
  λ w, match node_at w p with
       | Some (NDir _) => (Raise (os_error IsADirectoryError), w)
       | Some (NFile _ a) =>
           if writable a then (Ok (), set_fs (<[p := NFile [] a]>) w)
           else (Raise (os_error PermissionError), w)
       | None =>
           match node_at w (path_parent p) with
           | Some (NDir _) => (Ok (), set_fs (<[p := NFile [] (new_attr w)]>) w)
           | Some (NFile _ _) => (Raise (os_error NotADirectoryError), w)
           | None => (Raise (os_error FileNotFoundError), w)
           end
       end.

(** [f.write(data)] on the file opened at [p]: the data is appended. *)
Definition write_bytes (p : Path) (data : list byte) : Py unit :=
  fault_point ;;
  λ w, match node_at w p with
       | Some (NFile old a) => (Ok (), set_fs (<[p := NFile (old ++ data) a]>) w)
       | _ => (Raise (os_error OSError), w)
       end.

(** [p.iterdir()]: the entries of a directory, read when the loop starts. *)
Definition iterdir (p : Path) : Py (list Path) :=
  λ w, match node_at w p with
       | Some (NDir _) =>
           (Ok (filter (λ q, q ≠ [] ∧ path_parent q = p) (map_to_list (fs w)).*1), w)
       | Some (NFile _ _) => (Raise (os_error NotADirectoryError), w)
       | None => (Raise (os_error FileNotFoundError), w)
       end.

(* ===================================================================== *)
(** ** The environment of the module: third-party codecs and the network *)
(* ===================================================================== *)

(** An opened [PIL.Image.Image], as far as the module looks at it. *)
Record Image := {
  img_mode : pystr;
  img_info : list (pystr * pyval);      (* [img.info], keys in order *)
  img_raster : list byte
}.

(** A [requests.Response] to a streaming GET. *)
Record Response := {
  status_code : N;
  content_type_header : option pystr;   (* headers.get("Content-Type") *)
  body_chunks : list (list byte);       (* what iter_content yields ... *)
  stream_error : option exn             (* ... before it raises, if it does *)
}.

Class Env := {
  (* Pillow *)
  pil_open : list byte → Res Image;               (* Image.open *)
  pil_load : Image → Res Image;                   (* img.load() *)
  pil_convert : Image → pystr → Res Image;        (* img.convert(mode) *)
  pil_format : pystr → option pystr;              (* EXTENSION.get(ext) *)
  pil_encode : Image → pystr → list (pystr * pyval) → Res (list byte);
  (* the fields read inside the [try] blocks of the three extractors *)
  image_fields : list byte → Res (Dict);
  pdf_fields : list byte → Res (Dict);
  av_fields : list byte → Res (Dict);
  (* requests *)
  http_get : pystr → Res Response;
  http_head : pystr → Res (option pystr);
  (* json.dump and the "key: value" lines of _save_metadata *)
  json_dump : Dict → Res (list byte);
  text_dump : Dict → Res (list byte)
}.

Definition lift {A} (r : Res A) : Py A := λ w, (r, w).

(** What [source] denotes as a path ([Path(source)]) and as a string. *)
Record Source := { src_path : Path; src_text : pystr }.

Section Toolkit.
Context `{Env}.

(* ===================================================================== *)
(** ** [MediaMetadataBase] *)
(* ===================================================================== *)

Definition _get_file_info (file_path : Path) : Py MediaFileInfo :=
  let* st := stat file_path in
  ret {| info_path := file_path; info_size := st.1;
         info_created := created st.2; info_modified := modified st.2 |}.

Definition _validate_file (file_path : Path) (check_read check_write : bool) : Py unit :=
  let* e := path_exists file_path in
  if negb e then raise (Exn FileOperationError "Path does not exist: " None) else
  let* r := access_R file_path in
  if check_read && negb r then raise (Exn FileOperationError "No read permission for: " None) else
  let* wr := access_W file_path in
  if check_write && negb wr then raise (Exn FileOperationError "No write permission for: " None) else
  ret ().

(* ===================================================================== *)
(** ** [MediaMetadataExtractor] *)
(* ===================================================================== *)

Definition str_path (p : Path) : pystr :=
  match p with
  | [] => u "."
  | c :: rest => c ++ concat ((λ x, u "/" ++ x) <$> rest)
  end.

Definition _get_base_metadata : Py (Dict) :=
  λ w, (Ok match _file_info w with
           | None => ∅
           | Some i =>
               {[ u "file_path" := VStr (str_path (info_path i));
                  u "file_size" := VInt (info_size i);
                  u "file_created" := VStr (info_created i);
                  u "file_modified" := VStr (info_modified i) ]}
           end, w).

(** The common shape of [_extract_image_metadata], [_extract_pdf_metadata]
    and [_extract_av_metadata]: the record starts with [file_type] and the
    base metadata, the fields read by the codec are added inside a [try]
    whose handlers wrap what it raises, and the record is cleaned. *)
Definition extract_with (file_type : pystr)
    (fields : list byte → Res (Dict))
    (handler : exn → Py (Dict)) (path : Path) : Py (Dict) :=
  let metadata : Dict := {[ u "file_type" := VStr file_type ]} in
  let* base := _get_base_metadata in
  let metadata := dict_update metadata base in
  let* metadata :=
    try_except
      (let* content := read_bytes path in
       let* found := lift (fields content) in
       ret (dict_update metadata found))
      handler in
  ret (_clean_metadata_dict metadata).

Definition _extract_image_metadata : Path → Py (Dict) :=
  extract_with (u "image") image_fields
    (λ e, if bool_decide (exn_class e = UnidentifiedImageError)
          then raise (Exn UnsupportedMediaError "Unsupported image format: " (Some e))
          else raise (Exn MediaMetadataError "Error processing image: " (Some e))).

Definition _extract_pdf_metadata : Path → Py (Dict) :=
  extract_with (u "pdf") pdf_fields
    (λ e, raise (Exn MediaMetadataError "Error processing PDF: " (Some e))).

Definition _extract_av_metadata : Path → Py (Dict) :=
  extract_with (u "audio/video") av_fields
    (λ e, raise (Exn MediaMetadataError "Error processing audio/video: " (Some e))).

Definition _extract_from_file (file_path : Path) : Py (Dict) :=
  _validate_file file_path true false ;;
  let* info := _get_file_info file_path in
  (λ w, (Ok (), set_file_info info w)) ;;
  let ext := _get_extension file_path in
  match classify ext with
  | KImage => _extract_image_metadata file_path
  | KPdf => _extract_pdf_metadata file_path
  | KAudioVideo => _extract_av_metadata file_path
  | KUnsupported => raise (Exn UnsupportedMediaError "Unsupported file type: " None)
  end.

Definition content_type_extensions : list (pystr * pystr) :=
  [ (u "image/jpeg", u ".jpg"); (u "image/png", u ".png"); (u "image/gif", u ".gif");
    (u "application/pdf", u ".pdf"); (u "audio/mpeg", u ".mp3");
    (u "video/mp4", u ".mp4"); (u "video/quicktime", u ".mov") ].

Definition _get_extension_from_content_type (content_type : pystr) : option pystr :=
  snd <$> List.find (λ kv, bool_decide (kv.1 = str_lower content_type))
                    content_type_extensions.

(** [s.split(";")[0]] *)
Fixpoint before_semicolon (s : pystr) : pystr :=
  match s with
  | [] => []
  | c :: t => if c =? 0x3B then [] else c :: before_semicolon t
  end.

Definition is_request_exception (c : ExnClass) : bool :=
  bool_decide (c = RequestException).

Definition _download_url (url : pystr) : Py Path :=
  try_except_if is_request_exception
    (let* response := lift (http_get url) in
     (if (400 <=? status_code response) && (status_code response <? 600)
      then raise (Exn RequestException "HTTPError" None) else ret ()) ;;
     let content_type := before_semicolon (default [] (content_type_header response)) in
     let ext := default (u ".tmp") (_get_extension_from_content_type content_type) in
     let* stamp := (λ w, (Ok (now_stamp w), w)) in
     let temp_file : Path := [u "mmt_temp_" ++ stamp ++ ext] in
     open_write temp_file ;;
     for_each (body_chunks response) ()
       (λ _ chunk, match chunk with [] => ret () | _ => write_bytes temp_file chunk end) ;;
     match stream_error response with Some e => raise e | None => ret () end ;;
     ret temp_file)
    (λ e, raise (Exn NetworkError "Failed to download URL: " (Some e))).

Definition _get_url_content_type (url : pystr) : Py pystr :=
  try_except_if is_request_exception
    (let* header := lift (http_head url) in ret (default (u "unknown") header))
    (λ _, ret (u "unknown")).

(** The [try] block of [_extract_from_url]. *)
Definition extract_downloaded (url : pystr) (temp_file : Path) : Py (Dict) :=
  let* metadata := _extract_from_file temp_file in
  let* content_type := _get_url_content_type url in
  ret (dict_update metadata
         {[ u "source_url" := VStr url; u "content_type" := VStr content_type ]}).

(** The [finally] block of [_extract_from_url]. *)
Definition delete_temp_file (temp_file : Path) : Py unit :=
  try_except (unlink temp_file)
             (λ e, logger_log WARNING (MsgTempNotDeleted e)).

Definition _extract_from_url (url : pystr) : Py (Dict) :=
  let* temp_file := _download_url url in
  try_finally (extract_downloaded url temp_file) (delete_temp_file temp_file).

Definition extract (source : Source) (is_url : bool) : Py (Dict) :=
  try_except
    (if is_url then _extract_from_url (src_text source)
     else _extract_from_file (src_path source))
    (λ e, logger_log ERROR (MsgExtractionFailed e) ;;
          raise (Exn MediaMetadataError "Metadata extraction failed: " (Some e))).

(* ===================================================================== *)
(** ** [MediaMetadataRemover] *)
(* ===================================================================== *)

(** The keywords [img.save(output_path, quality=95, exif=b'', **img.info)]
    already binds; an [info] key among them is a duplicate argument. *)
Definition bound_keywords : list pystr :=
  [u "self"; u "fp"; u "format"; u "quality"; u "exif"].

(** [img.save(output_path, quality=95, exif=b'', **img.info)]: the call is
    rejected on a duplicate keyword; [Image.save] then loads the image,
    finds the format from the extension, opens the file and lets the
    encoder write; if the encoder fails, a file that [save] created is
    removed again. *)
Definition img_save (img : Image) (output_path : Path) : Py unit :=
  if existsb (λ kv, str_in kv.1 bound_keywords) (img_info img)
  then raise (Exn TypeError "got multiple values for keyword argument" None)
  else
    let params := [(u "quality", VInt 95); (u "exif", VBytes [])] ++ img_info img in
    let* img := lift (pil_load img) in
    match pil_format (str_lower (path_suffix output_path)) with
    | None => raise (Exn ValueError "unknown file extension: " None)
    | Some format =>
        let* existed := path_exists output_path in
        open_write output_path ;;
        try_except
          (let* data := lift (pil_encode img format params) in
           write_bytes output_path data)
          (λ e,
             (if existed then ret ()
              else try_except_if (λ c, bool_decide (c = PermissionError))
                     (unlink output_path) (λ _, ret ())) ;;
             raise e)
    end.

Definition _remove_image_metadata (input_path output_path : Path) : Py Path :=
  try_except
    (let* content := read_bytes input_path in
     let* img := lift (pil_open content) in
     let* img :=
       (if str_in (img_mode img) [u "RGB"; u "RGBA"] then ret img
        else lift (pil_convert img (u "RGB"))) in
     img_save img output_path ;;
     logger_log INFO (MsgMetadataRemoved input_path output_path) ;;
     ret output_path)
    (λ e, if bool_decide (exn_class e = UnidentifiedImageError)
          then raise (Exn UnsupportedMediaError "Unsupported image format: " (Some e))
          else raise (Exn MetadataRemovalError "Error removing metadata: " (Some e))).

(** [f"{file_path.stem}{tag}{file_path.suffix}"] as a sibling of the file. *)
Definition sibling (file_path : Path) (tag : pystr) : Path :=
  with_name file_path (path_stem file_path ++ tag ++ path_suffix file_path).

Definition remove_metadata (source : Path) (output_path : option Path)
    (in_place : bool) : Py Path :=
  let file_path := source in
  _validate_file file_path true in_place ;;
  if negb (_is_supported file_path (Some (u "image")))
  then raise (Exn UnsupportedMediaError "Unsupported file type for metadata removal: " None)
  else if in_place && bool_decide (is_Some output_path)
  then raise (Exn InvalidInputError "Cannot specify both output_path and in_place=True" None)
  else if in_place then
    let output_path := sibling file_path (u "_temp") in
    let* result := _remove_image_metadata file_path output_path in
    try_except
      (unlink file_path ;;
       rename output_path file_path ;;
       ret file_path)
      (λ e, raise (Exn MetadataRemovalError "Failed to replace original file: " (Some e)))
  else
    let output_path := default (sibling file_path (u "_clean")) output_path in
    _remove_image_metadata file_path output_path.

(** The body of the loop of [remove_metadata_from_directory] for an item
    that is a file of a supported kind. *)
Definition remove_item (output_path item : Path) (processed_files : list Path)
    : Py (list Path) :=
  try_except
    (let rel_path := path_name item in   (* = item.relative_to(dir_path) *)
     let dest_path := path_join output_path rel_path in
     mkdir (path_parent dest_path) true true ;;
     let* result := remove_metadata item (Some dest_path) false in
     ret (processed_files ++ [result]))
    (λ e, logger_log WARNING (MsgSkipped item e) ;; ret processed_files).

(** The destination of an item in the output directory. *)
Definition destination (output_path item : Path) : Path :=
  path_join output_path (path_name item).

(** The statements of [remove_metadata_from_directory] before its loop:
    validation, the output directory, and the listing of the directory. *)
Definition open_directory (directory : Path) (output_dir : option Path)
    : Py (Path * list Path) :=
  let dir_path := directory in
  _validate_file dir_path true false ;;
  let* d := is_dir dir_path in
  if negb d then raise (Exn InvalidInputError "Path is not a directory: " None) else
  let output_path := default (path_join dir_path (u "clean_metadata")) output_dir in
  mkdir output_path false true ;;
  let* items := iterdir dir_path in
  ret (output_path, items).

(** The body of its loop; [recurse] is the method itself. *)
Definition directory_item (recurse : Path → option Path → bool → Py (list Path))
    (output_path : Path) (recursive : bool)
    (processed_files : list Path) (item : Path) : Py (list Path) :=
  let* d := is_dir item in
  if d && recursive then
    let sub_output := path_join output_path (path_name item) in
    let* sub := recurse item (Some sub_output) recursive in
    ret (processed_files ++ sub)
  else
    let* f := is_file item in
    if f && _is_supported item (Some (u "image"))
    then remove_item output_path item processed_files
    else ret processed_files.

(** [remove_metadata_from_directory].  [depth] is the number of nested
    calls the interpreter still allows; beyond it the call raises
    [RecursionError]. *)
Fixpoint remove_metadata_from_directory (depth : nat) (directory : Path)
    (output_dir : option Path) (recursive : bool) : Py (list Path) :=
  match depth with
  | O => raise (Exn RecursionError "maximum recursion depth exceeded" None)
  | S depth' =>
      let* opened := open_directory directory output_dir in
      for_each opened.2 []
        (directory_item (remove_metadata_from_directory depth') opened.1 recursive)
  end.

(* ===================================================================== *)
(** ** [MediaMetadataToolkit] *)
(* ===================================================================== *)

(** What [process] returns. *)
Inductive Processed :=
  | PMetadata (metadata : Dict)
  | PPath (p : Path)
  | PPaths (ps : list Path).

Definition has_suffix_json (output_path : Path) : bool :=
  bool_decide (str_lower (path_suffix output_path) = u ".json").

Definition _save_metadata (metadata : Dict) (output_path : Path) : Py unit :=
  mkdir (path_parent output_path) true true ;;
  try_except
    (open_write output_path ;;
     let* text :=
       lift (if has_suffix_json output_path then json_dump metadata
             else text_dump metadata) in
     write_bytes output_path text)
    (λ e, raise (Exn FileOperationError "Failed to save metadata: " (Some e))).

(** The keyword arguments [process] looks at, with their defaults. *)
Record Options := { is_url : bool; in_place : bool; recursive : bool }.

(** The [try] block of [process]. *)
Definition process_body (depth : nat) (source : Source) (operation : pystr)
    (output : option Path) (kwargs : Options) : Stmt Processed :=
  if bool_decide (operation = u "extract") then
    assign (extract source (is_url kwargs)) (λ metadata,
    then_ (match output with
           | Some out => exec (_save_metadata metadata out)
           | None => exec (ret ())
           end)
          (return_ (ret (PMetadata metadata))))
  else if bool_decide (operation = u "remove") then
    then_ (if is_url kwargs
           then exec (raise (Exn InvalidInputError "Cannot remove metadata from URLs directly" None))
           else exec (ret ()))
          (assign (is_dir (src_path source)) (λ d,
             if d : bool then
               return_ (let* ps := remove_metadata_from_directory depth (src_path source)
                                     output (recursive kwargs) in
                        ret (PPaths ps))
             else
               return_ (let* p := remove_metadata (src_path source) output (in_place kwargs) in
                        ret (PPath p))))
  else exec (raise (Exn InvalidInputError "Unknown operation: " None)).

Definition process (depth : nat) (source : Source) (operation : pystr)
    (output : option Path) (kwargs : Options) : Py (option Processed) :=
  call
    (then_ (exec (log_operation_start operation))
       (try_except_else
          (process_body depth source operation output kwargs)
          (λ e, then_ (exec (log_operation_end operation false))
                      (exec (raise e)))
          (exec (log_operation_end operation true)))).

End Toolkit.

(* ===================================================================== *)
(** ** A small environment and file system to run the module in *)
(* ===================================================================== *)

(** A toy image container: a magic byte, the length of the EXIF block, the
    EXIF block, the raster. *)
Definition toy_open (content : list byte) : Res Image :=
  match content with
  | x89 :: n :: rest =>
      Ok {| img_mode := u "RGB"; img_info := [];
            img_raster := drop (N.to_nat (Byte.to_N n)) rest |}
  | _ => Raise (Exn UnidentifiedImageError "cannot identify image file" None)
  end.

Definition toy_format (ext : pystr) : option pystr :=
  if str_in ext [u ".jpg"; u ".jpeg"] then Some (u "JPEG")
  else if str_in ext [u ".png"] then Some (u "PNG")
  else None.

(** The toy encoder writes an empty EXIF block. *)
Definition toy_encode (img : Image) (format : pystr) (params : list (pystr * pyval))
    : Res (list byte) :=
  Ok (x89 :: x00 :: img_raster img).

Definition toy_fields (content : list byte) : Res (Dict) :=
  res_map (λ img, {[ u "mode" := VStr (img_mode img); u "info" := VDict [] ]})
          (toy_open content).

Definition no_codec (content : list byte) : Res (Dict) :=
  Raise (Exn ValueError "not a media file" None).

Definition photo : list byte := [x89; x03; x45; x78; x69; x0a; x0b; x0c].
Definition stripped_photo : list byte := [x89; x00; x0a; x0b; x0c].

Definition toy_get (url : pystr) : Res Response :=
  if bool_decide (url = u "https://example.com/a.png") then
    Ok {| status_code := 200; content_type_header := Some (u "image/png; q=1");
          body_chunks := [[x89; x03; x45; x78]; []; [x69; x0a; x0b; x0c]];
          stream_error := None |}
  else if bool_decide (url = u "https://example.com/broken.png") then
    Ok {| status_code := 200; content_type_header := Some (u "image/png");
          body_chunks := [[x00; x01]]; stream_error := None |}
  else if bool_decide (url = u "https://example.com/cut.png") then
    Ok {| status_code := 200; content_type_header := Some (u "image/png");
          body_chunks := [[x89; x03]];
          stream_error := Some (Exn RequestException "ChunkedEncodingError" None) |}
  else Raise (Exn RequestException "ConnectionError" None).

Definition example_env : Env :=
  {| pil_open := toy_open;
     pil_load := Ok;
     pil_convert := λ img mode, Ok {| img_mode := mode; img_info := img_info img;
                                      img_raster := img_raster img |};
     pil_format := toy_format;
     pil_encode := toy_encode;
     image_fields := toy_fields;
     pdf_fields := no_codec;
     av_fields := no_codec;
     http_get := toy_get;
     http_head := λ _, Ok (Some (u "image/png"));
     json_dump := λ _, Ok [x7b; x7d];
     text_dump := λ _, Ok [] |}.

Definition example_attr : Attr :=
  {| readable := true; writable := true;
     created := u "2024-05-01T10:00:00"; modified := u "2024-05-02T11:30:00" |}.

(** The working directory holds [photo.png], [old.png], [notes.txt] and a
    directory [album] with two images, a broken one, and a sub-directory. *)
Definition example_fs : gmap (list (list N)) Node :=
  list_to_map
    [ ([u "photo.png"], NFile photo example_attr);
      ([u "old.png"], NFile [x01; x02; x03] example_attr);
      ([u "notes.txt"], NFile [x68; x69] example_attr);
      ([u "album"], NDir example_attr);
      ([u "album"; u "a.png"], NFile photo example_attr);
      ([u "album"; u "broken.jpg"], NFile [x00] example_attr);
      ([u "album"; u "b.PNG"], NFile [x89; x00; x07] example_attr);
      ([u "album"; u "trip"], NDir example_attr);
      ([u "album"; u "trip"; u "c.png"], NFile [x89; x01; x45; x09] example_attr) ].

Definition example_world (schedule : list (option exn)) : World :=
  {| fs := example_fs; faults := schedule; log := []; log_level := INFO;
     now_stamp := u "1714557600.25"; now_iso := u "2024-05-03T09:00:00";
     _file_info := None |}.

Definition local (name : string) : Source :=
  {| src_path := [u name]; src_text := u name |}.

Definition no_options : Options :=
  {| is_url := false; in_place := false; recursive := false |}.

(* ===================================================================== *)
(** ** Predicates on computations, used to state what a call leaves alone *)
(* ===================================================================== *)

(** [q] lies strictly inside the directory [d]. *)
Definition under (d q : Path) : Prop := ∃ rest, rest ≠ [] ∧ q = d ++ rest.

Definition is_dir_node (n : Node) : Prop :=
  match n with NDir _ => True | NFile _ _ => False end.

(** [m] leaves every node selected by [P] as it is: it may create nodes,
    and change or remove others, but not these. *)
Definition preserves {A} (P : Path → Node → Prop) (m : Py A) : Prop :=
  ∀ w r w', m w = (r, w') →
    ∀ q n, P q n → fs w !! q = Some n → fs w' !! q = Some n.

(** Outside the directory [d], or a directory. *)
Definition outside_or_dir (d : Path) (q : Path) (n : Node) : Prop :=
  ¬ under d q ∨ is_dir_node n.

(** [P] holds of no file at [p]. *)
Definition spares_files_at (P : Path → Node → Prop) (p : Path) : Prop :=
  ∀ data a, ¬ P p (NFile data a).

(** The output directory a call works with. *)
Definition output_root (directory : Path) (output_dir : option Path) : Path :=
  default (path_join directory (u "clean_metadata")) output_dir.

(** The name of the temporary file for a content type. *)
Definition temp_file_for (stamp : pystr) (content_type : option pystr) : Path :=
  [u "mmt_temp_" ++ stamp
   ++ default (u ".tmp")
        (_get_extension_from_content_type (before_semicolon (default [] content_type)))].

(** A server that answers every request with a WebP image. *)
Definition webp_response : Response :=
  {| status_code := 200; content_type_header := Some (u "image/webp");
     body_chunks := [[x52; x49; x46; x46]]; stream_error := None |}.

Definition webp_env : Env :=
  {| pil_open := toy_open; pil_load := Ok;
     pil_convert := λ img mode, Ok img;
     pil_format := toy_format; pil_encode := toy_encode;
     image_fields := toy_fields; pdf_fields := no_codec; av_fields := no_codec;
     http_get := λ _, Ok webp_response;
     http_head := λ _, Ok (Some (u "image/webp"));
     json_dump := λ _, Ok [x7b; x7d];
     text_dump := λ _, Ok [] |}.

(* ===================================================================== *)
(** ** EXIF and GPS tags: [_extract_exif_data], [_extract_gps_data] *)
(* ===================================================================== *)

(** A key of the decoded mapping: the name of a tag, or its number when
    the table has no name for it. *)
Abbreviation TagKey := (list N + Z)%type.

(** [table.get(key, key)] for [PIL.ExifTags.TAGS] and [GPSTAGS], whose keys
    are tag numbers: a key that is already a name is not in the table. *)
Definition tag_key (table : Z → option pystr) (key : TagKey) : TagKey :=
  match key with
  | inr tag_id => match table tag_id with Some name => inl name | None => inr tag_id end
  | inl name => inl name
  end.

(** The loop of both functions: [out[table.get(key, key)] = value] for the
    items in order. *)
Definition rename_tags (table : Z → option pystr) (items : list (TagKey * pyval))
    : gmap TagKey pyval :=
  foldl (λ out kv, <[tag_key table kv.1 := kv.2]> out) ∅ items.

(** [_extract_exif_data(img)].  The argument is [img._getexif()] where the
    image has that method: [None] if it has not, [Some None] if the method
    returns [None], else the items of the dict it returns. *)
Definition _extract_exif_data (TAGS : Z → option pystr)
    (getexif : option (option (list (Z * pyval)))) : gmap TagKey pyval :=
  match getexif with
  | Some (Some (item :: items)) =>
      rename_tags TAGS ((λ kv : Z * pyval, (inr kv.1, kv.2)) <$> (item :: items))
  | _ => ∅
  end.

(** [_extract_gps_data(gps_info)], on the items of [gps_info]. *)
Definition _extract_gps_data (GPSTAGS : Z → option pystr)
    (gps_info : list (TagKey * pyval)) : gmap TagKey pyval :=
  rename_tags GPSTAGS gps_info.

(** A fragment of Pillow's tables, for the examples. *)
Definition some_TAGS (tag_id : Z) : option pystr :=
  if (tag_id =? 271)%Z then Some (u "Make")
  else if (tag_id =? 272)%Z then Some (u "Model")
  else if (tag_id =? 34853)%Z then Some (u "GPSInfo")
  else None.

(* ===================================================================== *)
(** * Properties *)
(* ===================================================================== *)

Example classify_examples :
  classify_path [u "holiday"; u "Photo.JPG"] = KImage
  ∧ classify_path [u "doc.pdf"] = KPdf
  ∧ classify_path [u "a.tar.Mp3"] = KAudioVideo
  ∧ classify_path [u "notes.txt"] = KUnsupported
  ∧ classify_path [u ".jpg"] = KUnsupported.
Proof. vm_compute. done. Qed.

Example decode_examples :
  bytes_decode Replace [x41; xc3; xa9; xe2; x82; xac; xf0; x9f; x98; x80]
    = Ok [0x41; 0xE9; 0x20AC; 0x1F600]
  ∧ bytes_decode Replace [xe2; x82; x41] = Ok [0xFFFD; 0x41]
  ∧ bytes_decode Replace [xc0; x80] = Ok [0xFFFD; 0xFFFD]
  ∧ bytes_decode Replace [xed; xa0; x80] = Ok [0xFFFD; 0xFFFD; 0xFFFD]
  ∧ bytes_decode Replace [xf0; x90; x80] = Ok [0xFFFD]
  ∧ bytes_decode Replace [xff; x41] = Ok [0xFFFD; 0x41]
  ∧ bytes_decode Strict [xff; x41] = Raise (Exn UnicodeDecodeError "invalid utf-8" None).
Proof. vm_compute. done. Qed.

(* --------------------------------------------------------------------- *)
(** ** Strings, paths and tables *)
(* --------------------------------------------------------------------- *)

Lemma lower_cp_dot (c : N) : (lower_cp c =? dot) = (c =? dot).
Proof.
  unfold lower_cp, dot.
  repeat match goal with
         | |- context [if ?b then _ else _] => destruct b eqn:?
         end;
  rewrite ?andb_true_iff, ?andb_false_iff, ?negb_true_iff, ?negb_false_iff in *;
  rewrite ?N.leb_le, ?N.leb_gt, ?N.eqb_eq, ?N.eqb_neq in *;
  try (apply eq_true_iff_eq; rewrite !N.eqb_eq; lia);
  try (symmetry; apply N.eqb_neq; lia).
  all: try (apply N.eqb_neq); try lia.
Qed.

Lemma rfind_dot_lower (s : pystr) : rfind_dot (str_lower s) = rfind_dot s.
Proof.
  induction s as [|c t IH]; [done|].
  change (str_lower (c :: t)) with (lower_cp c :: str_lower t).
  simpl. rewrite IH, lower_cp_dot. done.
Qed.

Lemma name_suffix_lower (n : pystr) :
  str_lower
    (match rfind_dot n with
     | Some i => if (0 <? i)%nat && (i <? length n - 1)%nat then drop i n else []
     | None => []
     end)
  = match rfind_dot (str_lower n) with
    | Some i =>
        if (0 <? i)%nat && (i <? length (str_lower n) - 1)%nat
        then drop i (str_lower n) else []
    | None => []
    end.
Proof.
  rewrite rfind_dot_lower. unfold str_lower at 2 3. rewrite length_fmap.
  destruct (rfind_dot n) as [i|]; [|done].
  destruct (_ && _); [|done].
  unfold str_lower. by rewrite fmap_drop.
Qed.

Lemma get_extension_by_lower_name (p q : Path) :
  str_lower (path_name p) = str_lower (path_name q) →
  _get_extension p = _get_extension q.
Proof.
  intros H. unfold _get_extension, path_suffix. cbv zeta.
  by rewrite !name_suffix_lower, H.
Qed.

Lemma image_table :
  table_get (u "image") SUPPORTED_EXTENSIONS
  = [u ".jpg"; u ".jpeg"; u ".png"; u ".gif"; u ".tiff"; u ".bmp"; u ".webp"].
Proof. vm_compute. done. Qed.

Lemma all_extensions_split :
  all_extensions
  = table_get (u "image") SUPPORTED_EXTENSIONS
    ++ table_get (u "pdf") SUPPORTED_EXTENSIONS
    ++ (table_get (u "audio") SUPPORTED_EXTENSIONS
        ++ table_get (u "video") SUPPORTED_EXTENSIONS).
Proof. vm_compute. done. Qed.

Lemma all_extensions_dotted : Forall (λ e, head e = Some dot) all_extensions.
Proof. vm_compute. repeat constructor. Qed.

Lemma classify_by_lookup (ext : pystr) :
  match classify ext with
  | KImage => ext ∈ table_get (u "image") SUPPORTED_EXTENSIONS
  | KPdf => ext ∈ table_get (u "pdf") SUPPORTED_EXTENSIONS
  | KAudioVideo =>
      ext ∈ table_get (u "audio") SUPPORTED_EXTENSIONS
      ∨ ext ∈ table_get (u "video") SUPPORTED_EXTENSIONS
  | KUnsupported => ext ∉ all_extensions
  end.
Proof.
  unfold classify, str_in.
  repeat case_bool_decide; try done.
  - by apply elem_of_app.
  - rewrite all_extensions_split, !elem_of_app in *. tauto.
Qed.

Lemma classify_unsupported_iff (ext : pystr) :
  classify ext = KUnsupported ↔ ext ∉ all_extensions.
Proof.
  split.
  - intros H. pose proof (classify_by_lookup ext) as L. by rewrite H in L.
  - intros H. rewrite all_extensions_split, !elem_of_app in H.
    unfold classify, str_in.
    repeat case_bool_decide; try done; try tauto.
    exfalso. rewrite elem_of_app in *. tauto.
Qed.

Lemma existsb_in_concat (ext : pystr) (tbl : list (pystr * list pystr)) :
  existsb (λ kv, str_in ext kv.2) tbl = str_in ext (concat (snd <$> tbl)).
Proof.
  unfold str_in. induction tbl as [|[k v] tbl IH]; [done|].
  cbn [existsb fmap list_fmap concat snd]. rewrite IH.
  apply eq_true_iff_eq.
  rewrite orb_true_iff, !bool_decide_eq_true, elem_of_app. done.
Qed.

Lemma is_supported_any (p : Path) :
  _is_supported p None = str_in (_get_extension p) all_extensions.
Proof. unfold _is_supported. cbv zeta. apply existsb_in_concat. Qed.

(** C9, as stated, fails: the kind does depend on whether the leading dot
    is given.  An extension written without it is in no table, so it is
    unsupported although its dotted form is an image extension; nothing in
    the module adds the dot. *)
Lemma classify_dotless_counterexample :
  classify (str_lower (u "JPG")) = KUnsupported
  ∧ classify (str_lower (u ".JPG")) = KImage
  ∧ _is_supported [u "JPG"] None = false
  ∧ _is_supported [u "photo.JPG"] None = true
  ∧ ¬ (∀ ext : pystr,
         head ext ≠ Some dot →
         classify (str_lower ext) = classify (str_lower (dot :: ext))).
Proof.
  do 4 (split; [vm_compute; reflexivity|]).
  intros Hall. specialize (Hall (u "JPG")).
  vm_compute in Hall. discriminate Hall. discriminate.
Qed.

(** C9 (amended).  Classification is a total, pure function.  The kind is
    found by looking the lower-cased suffix of the path (which carries its
    leading dot) up in the fixed tables; the result does not depend on the
    case of the file name; an extension in no table, and in particular any
    extension written without the leading dot, is unsupported. *)
Theorem classification_total_by_suffix_lookup :
  (∀ ext : pystr,
     match classify ext with
     | KImage => ext ∈ table_get (u "image") SUPPORTED_EXTENSIONS
     | KPdf => ext ∈ table_get (u "pdf") SUPPORTED_EXTENSIONS
     | KAudioVideo =>
         ext ∈ table_get (u "audio") SUPPORTED_EXTENSIONS
         ∨ ext ∈ table_get (u "video") SUPPORTED_EXTENSIONS
     | KUnsupported => ext ∉ all_extensions
     end)
  ∧ (∀ p q : Path,
       str_lower (path_name p) = str_lower (path_name q) →
       classify_path p = classify_path q)
  ∧ (∀ ext : pystr, ext ∉ all_extensions → classify ext = KUnsupported)
  ∧ (∀ ext : pystr, head ext ≠ Some dot → classify (str_lower ext) = KUnsupported)
  ∧ (∀ p : Path, _is_supported p None = true ↔ classify_path p ≠ KUnsupported).
Proof.
  split; [exact classify_by_lookup|].
  split.
  { intros p q H. unfold classify_path. by rewrite (get_extension_by_lower_name p q). }
  split; [intros ext; apply classify_unsupported_iff|].
  split.
  - intros ext Hd. apply classify_unsupported_iff. intros Hin.
    pose proof all_extensions_dotted as F. rewrite Forall_forall in F.
    apply F in Hin. destruct ext as [|c t]; [done|].
    apply Hd. cbn in Hin |- *. f_equal.
    injection Hin as Hin. apply N.eqb_eq.
    rewrite <- lower_cp_dot. by apply N.eqb_eq.
  - intros p. rewrite is_supported_any. unfold str_in.
    rewrite bool_decide_eq_true. unfold classify_path.
    rewrite classify_unsupported_iff.
    destruct (decide (_get_extension p ∈ all_extensions)); tauto.
Qed.

Lemma classification_total_by_suffix_lookup_witness :
  classify_path [u "holiday"; u "Photo.JPG"] = classify_path [u "photo.jpg"]
  ∧ classify (u ".docx") = KUnsupported
  ∧ classify (str_lower (u "PNG")) = KUnsupported
  ∧ _is_supported [u "clip.MKV"] None = true.
Proof.
  pose proof classification_total_by_suffix_lookup as (_ & Hcase & Hnone & Hdot & Hsup).
  split; [apply Hcase; vm_compute; reflexivity|].
  split; [apply Hnone; refine (bool_decide_unpack _ _); vm_compute; exact I|].
  split; [apply Hdot; vm_compute; discriminate|].
  apply Hsup. vm_compute. discriminate.
Defined.

(* --------------------------------------------------------------------- *)
(** ** The UTF-8 codec and the sanitizer *)
(* --------------------------------------------------------------------- *)

Lemma utf8_replace_total (bs : list N) (skip : nat) :
  ∃ s, utf8_loop Replace skip bs = Ok s.
Proof.
  revert skip. induction bs as [|b rest IH]; intros skip; [by eexists|].
  destruct skip as [|k]; cbn [utf8_loop]; [|apply IH].
  destruct (utf8_step b rest) as [cp len|len];
    destruct (IH (len - 1)%nat) as [s Hs]; rewrite Hs; by eexists.
Qed.

Lemma utf8_replace_nonempty (b : N) (rest : list N) (s : pystr) :
  utf8_loop Replace 0 (b :: rest) = Ok s → s ≠ [].
Proof.
  cbn [utf8_loop].
  destruct (utf8_step b rest) as [cp len|len];
    destruct (utf8_loop Replace (len - 1) rest); cbn; intros [= <-]; done.
Qed.

Lemma bytes_decode_replace_total (value : list byte) :
  ∃ s, bytes_decode Replace value = Ok s.
Proof. apply utf8_replace_total. Qed.

Lemma clean_metadata_dict_fmap (metadata : Dict) :
  _clean_metadata_dict metadata = clean_value <$> metadata.
Proof.
  unfold _clean_metadata_dict.
  apply (map_fold_weak_ind (λ r (m : Dict), r = clean_value <$> m)).
  - by rewrite fmap_empty.
  - intros key value m r _ ->. by rewrite fmap_insert.
Qed.

Lemma clean_value_idem (v : pyval) :
  v ≠ VBytes [] → clean_value (clean_value v) = clean_value v.
Proof.
  intros Hv. destruct v as [| | | |s|b|l|l|d]; try done.
  - by destruct s.
  - cbn. destruct b as [|b0 b]; [done|].
    destruct (bytes_decode Replace (b0 :: b)) as [s|e] eqn:E.
    + apply utf8_replace_nonempty in E. by destruct s.
    + destruct (bytes_decode_replace_total (b0 :: b)) as [s Hs]. congruence.
  - by destruct l.
  - by destruct d.
Qed.

(** C10.  In the sanitizer the decoding of a byte string with replacement
    never raises, so the "Binary Data" branch is not reachable: the cleaned
    value is always the decoded string.  The empty byte string is cleaned to
    the empty string, which is neither "Binary Data" nor "Empty String". *)
Theorem sanitize_bytes_always_decoded (b : list byte) :
  (∀ e, bytes_decode Replace b ≠ Raise e)
  ∧ (∃ s, bytes_decode Replace b = Ok s
          ∧ clean_value (VBytes b) = VStr s
          ∧ ∀ key : pystr,
              _clean_metadata_dict {[ key := VBytes b ]} !! key = Some (VStr s))
  ∧ clean_value (VBytes []) = VStr []
  ∧ VStr [] ≠ VStr (u "Binary Data")
  ∧ VStr [] ≠ VStr (u "Empty String").
Proof.
  destruct (bytes_decode_replace_total b) as [s Hs].
  split; [intros e; congruence|].
  split; [|done].
  exists s. split; [done|].
  assert (clean_value (VBytes b) = VStr s) as Hc by (cbn; by rewrite Hs).
  split; [done|]. intros key.
  by rewrite clean_metadata_dict_fmap, lookup_fmap, lookup_singleton_eq, <- Hc.
Qed.

(** C6.  The sanitizer works field by field and maps each value
    deterministically: None to "N/A", the empty string to "Empty String",
    the empty list and the empty dict to themselves, a byte string to its
    decoded string or to "Binary Data", and any other value to itself. *)
Theorem sanitize_field_mapping :
  (∀ (metadata : Dict) (key : pystr),
     _clean_metadata_dict metadata !! key = clean_value <$> metadata !! key)
  ∧ clean_value VNone = VStr (u "N/A")
  ∧ clean_value (VStr []) = VStr (u "Empty String")
  ∧ clean_value (VList []) = VList []
  ∧ clean_value (VDict []) = VDict []
  ∧ (∀ b : list byte,
       (∃ s, bytes_decode Replace b = Ok s ∧ clean_value (VBytes b) = VStr s)
       ∨ clean_value (VBytes b) = VStr (u "Binary Data"))
  ∧ (∀ v : pyval,
       v ≠ VNone → v ≠ VStr [] → (∀ b, v ≠ VBytes b) → clean_value v = v).
Proof.
  split; [intros; by rewrite clean_metadata_dict_fmap, lookup_fmap|].
  do 4 (split; [done|]).
  split.
  - intros b. left. destruct (bytes_decode_replace_total b) as [s Hs].
    exists s. split; [done|]. cbn. by rewrite Hs.
  - intros v H1 H2 H3. destruct v as [| | | |s|b|l|l|d]; try done.
    + by destruct s.
    + by destruct (H3 b).
    + by destruct l.
    + by destruct d.
Qed.

Lemma sanitize_field_mapping_witness :
  clean_value (VTuple [VInt 3000; VInt 2000]) = VTuple [VInt 3000; VInt 2000]
  ∧ clean_value (VStr (u "JPEG")) = VStr (u "JPEG").
Proof.
  pose proof sanitize_field_mapping as (_ & _ & _ & _ & _ & _ & Hother).
  split; apply Hother; discriminate.
Defined.

(** C5, as stated, fails: a field holding the empty byte string is cleaned
    to the empty string, which a second pass turns into "Empty String". *)
Lemma sanitize_not_idempotent_counterexample :
  let r : Dict := {[ u "comment" := VBytes [] ]} in
  _clean_metadata_dict r !! u "comment" = Some (VStr [])
  ∧ _clean_metadata_dict (_clean_metadata_dict r) !! u "comment"
    = Some (VStr (u "Empty String"))
  ∧ _clean_metadata_dict (_clean_metadata_dict r) ≠ _clean_metadata_dict r.
Proof.
  cbv zeta. rewrite !clean_metadata_dict_fmap.
  rewrite !map_fmap_singleton. rewrite !lookup_singleton_eq.
  split; [done|]. split; [done|].
  intros H. apply (f_equal (λ m : Dict, m !! u "comment")) in H.
  rewrite !lookup_singleton_eq in H. discriminate H.
Qed.

(** C5 (amended).  The sanitizer is idempotent on every record none of
    whose fields holds the empty byte string. *)
Theorem sanitize_idempotent_without_empty_bytes (r : Dict) :
  (∀ key, r !! key ≠ Some (VBytes [])) →
  _clean_metadata_dict (_clean_metadata_dict r) = _clean_metadata_dict r.
Proof.
  intros Hr. rewrite !clean_metadata_dict_fmap, <- map_fmap_compose.
  apply map_fmap_ext. intros key v Hv. cbn.
  apply clean_value_idem. intros ->. by apply (Hr key).
Qed.

Lemma sanitize_idempotent_without_empty_bytes_witness :
  let r : Dict :=
    {[ u "title" := VNone; u "author" := VStr [];
       u "thumbnail" := VBytes [xff; xd8]; u "frames" := VInt 1 ]} in
  _clean_metadata_dict (_clean_metadata_dict r) = _clean_metadata_dict r.
Proof.
  cbv zeta. apply sanitize_idempotent_without_empty_bytes.
  intros key H.
  repeat (rewrite lookup_insert in H; case_decide; [discriminate H|]).
  rewrite lookup_singleton in H. case_decide; discriminate H.
Defined.

(* --------------------------------------------------------------------- *)
(** ** The facade: operation markers *)
(* --------------------------------------------------------------------- *)

Section ToolkitProperties.
Context `{Env}.

(** Every path through the [try] block of [process] ends in a [return] or
    in an exception. *)
Lemma process_body_never_falls_through depth source operation output kwargs w :
  (process_body depth source operation output kwargs w).1 ≠ Fallthrough.
Proof.
  unfold process_body.
  repeat case_bool_decide.
  - unfold assign, then_, return_, exec.
    destruct (extract source (is_url kwargs) w) as [[metadata|e] w1]; [|done].
    destruct output as [out|]; cbn.
    + by destruct (_save_metadata metadata out w1) as [[[]|e] w2].
    + done.
  - unfold assign, then_, return_, exec.
    destruct (is_url kwargs); [done|]. cbn.
    destruct (match node_at w (src_path source) with Some (NDir _) => true | _ => false end).
    + unfold bind.
      by destruct (remove_metadata_from_directory _ _ _ _ w) as [[ps|e] w1].
    + unfold bind.
      by destruct (remove_metadata _ _ _ w) as [[p|e] w1].
  - done.
Qed.

(** What [process] adds around the [try] block: the start marker before it,
    the failure marker after an exception, and nothing after a [return]. *)
Lemma process_markers depth source operation output kwargs w :
  let started := (log_operation_start operation w).2 in
  match process_body depth source operation output kwargs started with
  | (Returned r, w1) =>
      process depth source operation output kwargs w = (Ok (Some r), w1)
  | (Raised e, w1) =>
      process depth source operation output kwargs w
      = (Raise e, (log_operation_end operation false w1).2)
  | (Fallthrough, _) => False
  end.
Proof.
  cbv zeta.
  pose proof (process_body_never_falls_through depth source operation output kwargs
                (log_operation_start operation w).2) as Hnf.
  unfold process, call, then_, try_except_else, exec.
  cbn [log_operation_start logger_log fst snd] in *.
  destruct (process_body _ _ _ _ _ _) as [[|r|e] w1]; cbn in *; done.
Qed.

End ToolkitProperties.

(** C4.  A successful [process] leaves only the start marker (and what the
    operation itself logs): the [else] block that would log the success
    marker is never run, because the [try] block returns.  A failing
    [process] logs the failure marker. *)
Theorem process_success_logs_no_end_marker :
  match process (H := example_env) 100 (local "photo.png") (u "extract")
          None no_options (example_world []) with
  | (Ok (Some (PMetadata _)), w') =>
      log w' = [(INFO, MsgOperationStart (u "extract"))]
  | _ => False
  end
  ∧ match process (H := example_env) 100 (local "photo.png") (u "remove")
            None no_options (example_world []) with
    | (Ok (Some (PPath p)), w') =>
        p = [u "photo_clean.png"]
        ∧ log w' = [(INFO, MsgOperationStart (u "remove"));
                    (INFO, MsgMetadataRemoved [u "photo.png"] [u "photo_clean.png"])]
    | _ => False
    end
  ∧ match process (H := example_env) 100 (local "notes.txt") (u "remove")
            None no_options (example_world []) with
    | (Raise e, w') =>
        exn_class e = UnsupportedMediaError
        ∧ log w' = [(INFO, MsgOperationStart (u "remove"));
                    (INFO, MsgOperationEnd (u "remove") false)]
    | _ => False
    end.
Proof. vm_compute. done. Qed.

(* --------------------------------------------------------------------- *)
(** ** Extraction *)
(* --------------------------------------------------------------------- *)

Section ExtractorProperties.
Context `{Env}.

Lemma validate_readable (p : Path) (w : World) (n : Node) :
  node_at w p = Some n → readable (node_attr n) = true →
  _validate_file p true false w = (Ok (), w).
Proof.
  intros Hn Hr.
  unfold _validate_file, bind, path_exists, access_R, access_W, ret.
  rewrite bool_decide_eq_true_2 by (rewrite Hn; eauto).
  repeat (first [rewrite Hn | rewrite Hr | progress cbn]). done.
Qed.

(** C3.  For an existing, readable file whose extension is in no table,
    [extract] writes nothing, but the exception the caller receives is the
    generic [MediaMetadataError] that wraps the [UnsupportedMediaError]
    raised by [_extract_from_file]; it is not of the UnsupportedMedia kind. *)
Theorem extract_unsupported_delivers_generic_error
    (source : Source) (w : World) (n : Node) :
  node_at w (src_path source) = Some n →
  readable (node_attr n) = true →
  _get_extension (src_path source) ∉ all_extensions →
  let inner := Exn UnsupportedMediaError "Unsupported file type: " None in
  let outer := Exn MediaMetadataError "Metadata extraction failed: " (Some inner) in
  ∃ w', extract source false w = (Raise outer, w')
        ∧ exn_class outer = MediaMetadataError
        ∧ exn_class outer ≠ UnsupportedMediaError
        ∧ is_domain_error (exn_class outer) = true
        ∧ exn_cause outer = Some inner
        ∧ fs w' = fs w.
Proof.
  intros Hn Hr Hext. cbv zeta.
  apply classify_unsupported_iff in Hext.
  unfold extract, try_except, _extract_from_file.
  unfold bind at 1. rewrite (validate_readable _ _ _ Hn Hr).
  unfold bind, _get_file_info, bind, stat. rewrite Hn, Hext.
  destruct n as [data a|a]; cbn; eexists; (split; [reflexivity|]);
    repeat split; try done; by destruct (_ <=? _)%nat.
Qed.

End ExtractorProperties.

Lemma extract_unsupported_delivers_generic_error_witness :
  ∃ w', extract (H := example_env) (local "notes.txt") false (example_world [])
        = (Raise (Exn MediaMetadataError "Metadata extraction failed: "
                   (Some (Exn UnsupportedMediaError "Unsupported file type: " None))), w')
        ∧ fs w' = fs (example_world []).
Proof.
  destruct (extract_unsupported_delivers_generic_error (H := example_env)
              (local "notes.txt") (example_world [])
              (NFile [x68; x69] example_attr)) as (w' & He & _ & _ & _ & _ & Hfs).
  - vm_compute. reflexivity.
  - reflexivity.
  - refine (bool_decide_unpack _ _). vm_compute. exact I.
  - exists w'. split; assumption.
Defined.

Section UrlProperties.
Context `{Env}.


Lemma unlink_raise_keeps (p : Path) (w w' : World) (e : exn) :
  unlink p w = (Raise e, w') → fs w' = fs w ∧ log w' = log w ∧ log_level w' = log_level w.
Proof.
  unfold unlink, bind, fault_point.
  destruct (faults w) as [|[e'|] rest].
  - destruct (node_at w p) as [[data a|a]|]; try done; by intros [= _ <-].
  - by intros [= _ <-].
  - destruct (node_at (set_faults rest w) p) as [[data a|a]|]; try done;
      by intros [= _ <-].
Qed.


End UrlProperties.

(** A download of an image, with and without a failing unlink, and a
    download that does not decode. *)
Example url_extraction_runs :
  let permission_denied := Some (os_error PermissionError) in
  match extract (H := example_env) {| src_path := []; src_text := u "https://example.com/a.png" |}
          true (example_world []) with
  | (Ok metadata, w') =>
      metadata !! u "source_url" = Some (VStr (u "https://example.com/a.png"))
      ∧ fs w' !! [u "mmt_temp_1714557600.25.png"] = None ∧ log w' = []
  | _ => False
  end
  ∧ match extract (H := example_env) {| src_path := []; src_text := u "https://example.com/a.png" |}
            true (example_world [None; None; None; permission_denied]) with
    | (Ok metadata, w') =>
        metadata !! u "source_url" = Some (VStr (u "https://example.com/a.png"))
        ∧ fs w' !! [u "mmt_temp_1714557600.25.png"] = Some (NFile photo (new_attr w'))
        ∧ log w' = [(WARNING, MsgTempNotDeleted (os_error PermissionError))]
    | _ => False
    end
  ∧ match extract (H := example_env) {| src_path := []; src_text := u "https://example.com/broken.png" |}
            true (example_world []) with
    | (Raise e, w') =>
        exn_class e = MediaMetadataError
        ∧ (exn_class <$> exn_cause e) = Some UnsupportedMediaError
        ∧ fs w' !! [u "mmt_temp_1714557600.25.png"] = None
    | _ => False
    end.
Proof. vm_compute. done. Qed.


(** The clean-up of [_extract_from_url] starts once [_download_url] has
    returned.  A download that breaks off while the body is streamed raises
    from [_download_url] itself, before the [try], and what was written so
    far stays on disk. *)
Example interrupted_download_run :
  match extract (H := example_env) {| src_path := []; src_text := u "https://example.com/cut.png" |}
          true (example_world []) with
  | (Raise e, w') =>
      exn_class e = MediaMetadataError
      ∧ (exn_class <$> exn_cause e) = Some NetworkError
      ∧ fs w' !! [u "mmt_temp_1714557600.25.png"] = Some (NFile [x89; x03] (new_attr w'))
  | (Ok _, _) => False
  end.
Proof. vm_compute. done. Qed.

(* --------------------------------------------------------------------- *)
(** ** Removal *)
(* --------------------------------------------------------------------- *)

Section RemoverProperties.
Context `{Env}.

Lemma node_at_file_lookup (w : World) (p : Path) (data : list byte) (a : Attr) :
  node_at w p = Some (NFile data a) → fs w !! p = Some (NFile data a).
Proof. by destruct p. Qed.

Lemma node_at_set_fs_insert (w : World) (p : Path) (n : Node) :
  p ≠ [] → node_at (set_fs (<[p := n]>) w) p = Some n.
Proof. destruct p; [done|]. intros _. cbn. by rewrite lookup_insert_eq. Qed.


End RemoverProperties.



Section InPlaceProperties.
Context `{Env}.

Lemma validate_writable (p : Path) (w : World) (n : Node) :
  node_at w p = Some n → readable (node_attr n) = true →
  writable (node_attr n) = true →
  _validate_file p true true w = (Ok (), w).
Proof.
  intros Hn Hr Hw.
  unfold _validate_file, bind, path_exists, access_R, access_W, ret.
  rewrite bool_decide_eq_true_2 by (rewrite Hn; eauto).
  repeat (first [rewrite Hn | rewrite Hr | rewrite Hw | progress cbn]). done.
Qed.

Lemma stem_suffix (p : Path) : path_stem p ++ path_suffix p = path_name p.
Proof.
  unfold path_stem, path_suffix. cbv zeta.
  destruct (rfind_dot (path_name p)) as [i|]; [|by rewrite app_nil_r].
  destruct (_ && _); [apply take_drop|by rewrite app_nil_r].
Qed.

Lemma sibling_differs (p : Path) (tag : pystr) :
  p ≠ [] → tag ≠ [] → sibling p tag ≠ p.
Proof.
  intros Hp Htag Heq. unfold sibling, with_name in Heq.
  pose proof (app_removelast_last [] Hp) as Hsplit.
  assert (removelast p ++ [path_stem p ++ tag ++ path_suffix p]
          = removelast p ++ [List.last p []]) as E by congruence.
  clear Heq. apply app_inv_head in E. injection E as Heq.
  change (List.last p []) with (path_name p) in Heq.
  apply (f_equal length) in Heq.
  rewrite <- stem_suffix, !length_app in Heq.
  destruct tag; [done|]. cbn in Heq. lia.
Qed.

Lemma unlink_ok_fs (p : Path) (w w' : World) (x : unit) :
  unlink p w = (Ok x, w') → fs w' = delete p (fs w).
Proof.
  unfold unlink, bind, fault_point.
  destruct (faults w) as [|[e|] rest]; try done.
  - destruct (node_at w p) as [[data a|a]|]; try done. by intros [= _ <-].
  - destruct (node_at (set_faults rest w) p) as [[data a|a]|]; try done.
    by intros [= _ <-].
Qed.

Lemma rename_raise_keeps (src dst : Path) (w w' : World) (e : exn) :
  rename src dst w = (Raise e, w') → fs w' = fs w.
Proof.
  unfold rename, bind, fault_point.
  destruct (faults w) as [|[e'|] rest].
  - destruct (node_at w src) as [[data a|a]|]; try by intros [= _ <-].
    destruct (node_at w dst) as [[? ?|?]|]; try (by intros [= _ <-]);
      destruct (node_at w (path_parent dst)) as [[? ?|?]|]; by intros [= _ <-].
  - by intros [= _ <-].
  - destruct (node_at (set_faults rest w) src) as [[data a|a]|]; try by intros [= _ <-].
    destruct (node_at (set_faults rest w) dst) as [[? ?|?]|]; try (by intros [= _ <-]);
      destruct (node_at (set_faults rest w) (path_parent dst)) as [[? ?|?]|];
      by intros [= _ <-].
Qed.

Lemma rename_ok_moves (src dst : Path) (w w' : World) (x : unit) :
  rename src dst w = (Ok x, w') →
  dst ≠ [] → fs w' !! dst = fs w !! src.
Proof.
  intros Hrun Hne. revert Hrun.
  unfold rename, bind, fault_point.
  destruct (faults w) as [|[e'|] rest]; try done.
  - destruct (node_at w src) as [[data a|a]|] eqn:Hs; try done.
    apply node_at_file_lookup in Hs.
    destruct (node_at w dst) as [[? ?|?]|]; try done;
      destruct (node_at w (path_parent dst)) as [[? ?|?]|]; try done;
      intros [= _ <-]; cbn; by rewrite lookup_insert_eq.
  - destruct (node_at (set_faults rest w) src) as [[data a|a]|] eqn:Hs; try done.
    apply node_at_file_lookup in Hs. cbn in Hs.
    destruct (node_at (set_faults rest w) dst) as [[? ?|?]|]; try done;
      destruct (node_at (set_faults rest w) (path_parent dst)) as [[? ?|?]|]; try done;
      intros [= _ <-]; cbn; by rewrite lookup_insert_eq.
Qed.

Lemma in_place_unfold (source : Path) (w : World) (n : Node) :
  node_at w source = Some n →
  readable (node_attr n) = true → writable (node_attr n) = true →
  _is_supported source (Some (u "image")) = true →
  let temp := sibling source (u "_temp") in
  let failed e := Exn MetadataRemovalError "Failed to replace original file: " (Some e) in
  remove_metadata source None true w
  = match _remove_image_metadata source temp w with
    | (Raise e, w1) => (Raise e, w1)
    | (Ok _, w1) =>
        match unlink source w1 with
        | (Raise e, w2) => (Raise (failed e), w2)
        | (Ok _, w2) =>
            match rename temp source w2 with
            | (Ok _, w3) => (Ok source, w3)
            | (Raise e, w3) => (Raise (failed e), w3)
            end
        end
    end.
Proof.
  intros Hn Hr Hw Hsup. cbv zeta.
  unfold remove_metadata. unfold bind at 1.
  rewrite (validate_writable _ _ _ Hn Hr Hw), Hsup. cbn [negb andb].
  rewrite bool_decide_eq_false_2 by (by intros [? ?]). cbn [andb].
  unfold bind at 1.
  destruct (_remove_image_metadata _ _ w) as [[res|e] w1]; [|done].
  unfold try_except, bind at 1.
  destruct (unlink source w1) as [[[]|e] w2]; [|done].
  unfold bind at 1.
  by destruct (rename _ source w2) as [[[]|e] w3].
Qed.

(** The steps of an in-place removal.  The original is unlinked only after
    [_remove_image_metadata] has returned; a failing unlink leaves the file
    system as it was; but the rename that follows a successful unlink is a
    second system call, and if it fails the original path holds nothing. *)
Lemma in_place_steps (source : Path) (w : World) (n : Node) :
  node_at w source = Some n →
  readable (node_attr n) = true → writable (node_attr n) = true →
  _is_supported source (Some (u "image")) = true →
  let temp := sibling source (u "_temp") in
  let failed e := Exn MetadataRemovalError "Failed to replace original file: " (Some e) in
  match _remove_image_metadata source temp w with
  | (Raise e, w1) => remove_metadata source None true w = (Raise e, w1)
  | (Ok _, w1) =>
      match unlink source w1 with
      | (Raise e, w2) =>
          remove_metadata source None true w = (Raise (failed e), w2)
          ∧ fs w2 = fs w1
      | (Ok _, w2) =>
          match rename temp source w2 with
          | (Ok _, w3) =>
              remove_metadata source None true w = (Ok source, w3)
              ∧ fs w3 !! source = fs w1 !! temp
          | (Raise e, w3) =>
              remove_metadata source None true w = (Raise (failed e), w3)
              ∧ fs w3 !! source = None
          end
      end
  end.
Proof.
  intros Hn Hr Hw Hsup. cbv zeta.
  assert (source ≠ []) as Hne.
  { intros ->. vm_compute in Hsup. discriminate Hsup. }
  rewrite (in_place_unfold _ _ _ Hn Hr Hw Hsup). cbv zeta.
  destruct (_remove_image_metadata _ _ w) as [[res|e] w1]; [|done].
  destruct (unlink source w1) as [[[]|e] w2] eqn:Hu.
  - pose proof (unlink_ok_fs _ _ _ _ Hu) as Hfs.
    destruct (rename _ source w2) as [[[]|e] w3] eqn:Hre.
    + split; [done|]. rewrite (rename_ok_moves _ _ _ _ _ Hre Hne), Hfs.
      apply lookup_delete_ne. intros E. symmetry in E. revert E.
      by apply sibling_differs.
    + apply rename_raise_keeps in Hre. split; [done|].
      by rewrite Hre, Hfs, lookup_delete_eq.
  - apply unlink_raise_keeps in Hu as [Hfs _]. done.
Qed.

End InPlaceProperties.

Section WriteFootprint.
Context `{Env}.

Lemma touches_only_bind {A B} (p : Path) (m : Py A) (k : A → Py B) :
  touches_only p m → (∀ a, touches_only p (k a)) → touches_only p (bind m k).
Proof.
  intros Hm Hk w r w' Hrun q Hq. unfold bind in Hrun.
  destruct (m w) as [[a|e] w1] eqn:E.
  - rewrite (Hk a _ _ _ Hrun q Hq). by apply (Hm _ _ _ E).
  - injection Hrun as _ <-. by apply (Hm _ _ _ E).
Qed.

Lemma touches_only_pure {A} (p : Path) (m : Py A) :
  (∀ w, (m w).2 = w) → touches_only p m.
Proof. intros Hm w r w' Hrun q _. specialize (Hm w). rewrite Hrun in Hm. by subst. Qed.

Lemma touches_only_try_except {A} (p : Path) (m : Py A) (h : exn → Py A) :
  touches_only p m → (∀ e, touches_only p (h e)) → touches_only p (try_except m h).
Proof.
  intros Hm Hh w r w' Hrun q Hq. unfold try_except in Hrun.
  destruct (m w) as [[a|e] w1] eqn:E.
  - injection Hrun as _ <-. by apply (Hm _ _ _ E).
  - rewrite (Hh e _ _ _ Hrun q Hq). by apply (Hm _ _ _ E).
Qed.

Lemma touches_only_fault_point (p : Path) : touches_only p fault_point.
Proof.
  intros w r w' Hrun q _. unfold fault_point in Hrun.
  destruct (faults w) as [|[e|] rest]; by injection Hrun as _ <-.
Qed.

Lemma touches_only_unlink (p : Path) : touches_only p (unlink p).
Proof.
  apply touches_only_bind; [apply touches_only_fault_point|]. intros _ w r w' Hrun q Hq.
  destruct (node_at w p) as [[? ?|?]|]; injection Hrun as _ <-; try done.
  cbn. by rewrite lookup_delete_ne.
Qed.

Lemma touches_only_open_write (p : Path) : touches_only p (open_write p).
Proof.
  apply touches_only_bind; [apply touches_only_fault_point|]. intros _ w r w' Hrun q Hq.
  destruct (node_at w p) as [[? a|?]|].
  - destruct (writable a); injection Hrun as _ <-; [|done]. cbn. by rewrite lookup_insert_ne.
  - by injection Hrun as _ <-.
  - destruct (node_at w (path_parent p)) as [[? ?|?]|]; injection Hrun as _ <-; try done.
    cbn. by rewrite lookup_insert_ne.
Qed.

Lemma touches_only_write_bytes (p : Path) (data : list byte) :
  touches_only p (write_bytes p data).
Proof.
  apply touches_only_bind; [apply touches_only_fault_point|]. intros _ w r w' Hrun q Hq.
  destruct (node_at w p) as [[? ?|?]|]; injection Hrun as _ <-; try done.
  cbn. by rewrite lookup_insert_ne.
Qed.

Lemma touches_only_img_save (img : Image) (output_path : Path) :
  touches_only output_path (img_save img output_path).
Proof.
  unfold img_save. destruct (existsb _ _); [by apply touches_only_pure|].
  apply touches_only_bind; [by apply touches_only_pure|]. intros img'.
  destruct (pil_format _); [|by apply touches_only_pure].
  apply touches_only_bind; [by apply touches_only_pure|]. intros existed.
  apply touches_only_bind; [apply touches_only_open_write|]. intros _.
  apply touches_only_try_except.
  - apply touches_only_bind; [by apply touches_only_pure|]. intros data.
    apply touches_only_write_bytes.
  - intros e. apply touches_only_bind; [|intros; by apply touches_only_pure].
    destruct existed; [by apply touches_only_pure|].
    apply touches_only_try_except; [apply touches_only_unlink|].
    intros e'. by destruct (bool_decide _); apply touches_only_pure.
Qed.

Lemma touches_only_logger (p : Path) (lvl : Level) (msg : LogMsg) :
  touches_only p (logger_log lvl msg).
Proof.
  intros w r w' Hrun q _. unfold logger_log in Hrun. injection Hrun as _ <-.
  by destruct (_ <=? _)%nat.
Qed.

(** [_remove_image_metadata] writes to the output path and nowhere else. *)
Lemma remove_image_metadata_footprint (input_path output_path : Path) :
  touches_only output_path (_remove_image_metadata input_path output_path).
Proof.
  unfold _remove_image_metadata. apply touches_only_try_except.
  - apply touches_only_bind.
    { apply touches_only_pure. intros w. unfold read_bytes.
      by destruct (node_at w input_path) as [[? ?|?]|]. }
    intros content. apply touches_only_bind; [by apply touches_only_pure|]. intros img.
    apply touches_only_bind.
    { destruct (str_in _ _); by apply touches_only_pure. }
    intros img1. apply touches_only_bind; [apply touches_only_img_save|]. intros _.
    apply touches_only_bind; [apply touches_only_logger|]. intros _.
    by apply touches_only_pure.
  - intros e. destruct (bool_decide _); by apply touches_only_pure.
Qed.

(** While the stripped copy is being written in place, and whether or not
    the writing succeeds, the original is as it was. *)
Lemma in_place_write_keeps_original (source : Path) (w w1 : World) r :
  source ≠ [] →
  _remove_image_metadata source (sibling source (u "_temp")) w = (r, w1) →
  fs w1 !! source = fs w !! source.
Proof.
  intros Hne Hrun.
  apply (remove_image_metadata_footprint _ _ _ _ _ Hrun).
  intros E. symmetry in E. revert E. by apply sibling_differs.
Qed.

End WriteFootprint.

(** C1.  In-place removal from [photo.png] when the rename fails: the
    stripped copy was written to [photo_temp.png] and the original was
    unlinked, so the call ends with a [MetadataRemovalError] and nothing at
    the original path. *)
Theorem in_place_rename_failure_loses_original :
  let schedule := [None; None; None; Some (os_error PermissionError)] in
  fs (example_world schedule) !! [u "photo.png"] = Some (NFile photo example_attr)
  ∧ match remove_metadata (H := example_env) [u "photo.png"] None true
            (example_world schedule) with
    | (Raise e, w') =>
        exn_class e = MetadataRemovalError
        ∧ exn_cause e = Some (os_error PermissionError)
        ∧ fs w' !! [u "photo.png"] = None
        ∧ fs w' !! [u "photo_temp.png"] = Some (NFile stripped_photo (new_attr w'))
    | (Ok _, _) => False
    end.
Proof. vm_compute. done. Qed.

(** The same removal without failures, and with a failing unlink. *)
Example in_place_other_runs :
  match remove_metadata (H := example_env) [u "photo.png"] None true (example_world []) with
  | (Ok p, w') =>
      p = [u "photo.png"]
      ∧ fs w' !! [u "photo.png"] = Some (NFile stripped_photo (new_attr w'))
      ∧ fs w' !! [u "photo_temp.png"] = None
  | (Raise _, _) => False
  end
  ∧ match remove_metadata (H := example_env) [u "photo.png"] None true
            (example_world [None; None; Some (os_error PermissionError)]) with
    | (Raise e, w') =>
        exn_class e = MetadataRemovalError
        ∧ fs w' !! [u "photo.png"] = Some (NFile photo example_attr)
    | (Ok _, _) => False
    end.
Proof. vm_compute. done. Qed.

(* --------------------------------------------------------------------- *)
(** ** Directory batches *)
(* --------------------------------------------------------------------- *)

Section DirectoryProperties.
Context `{Env}.

Lemma remove_image_metadata_returns_output (input_path output_path r : Path) (w w' : World) :
  _remove_image_metadata input_path output_path w = (Ok r, w') → r = output_path.
Proof.
  unfold _remove_image_metadata, try_except.
  destruct (bind (read_bytes input_path) _ w) as [[r'|e] w1] eqn:Hbody.
  - intros [= <- <-]. revert Hbody. unfold bind.
    repeat match goal with
           | |- context [match ?m ?w0 with _ => _ end] =>
               destruct (m w0) as [[?|?] ?]; try done
           end.
    unfold ret. by intros [= <- _].
  - case_bool_decide; by unfold raise.
Qed.







End DirectoryProperties.


(** A recursive batch over [album], which holds a file that does not
    decode: the other three images are written under [out], the broken
    one is skipped with a warning, and the image of the sub-directory is
    part of the result. *)
Example directory_batch_run :
  match remove_metadata_from_directory (H := example_env) 10 [u "album"]
          (Some [u "out"]) true (example_world []) with
  | (Ok processed, w') =>
      processed = [[u "out"; u "b.PNG"]; [u "out"; u "trip"; u "c.png"]; [u "out"; u "a.png"]]
      ∧ log w' = [(INFO, MsgMetadataRemoved [u "album"; u "b.PNG"] [u "out"; u "b.PNG"]);
                  (WARNING, MsgSkipped [u "album"; u "broken.jpg"]
                     (Exn UnsupportedMediaError "Unsupported image format: "
                        (Some (Exn UnidentifiedImageError "cannot identify image file" None))));
                  (INFO, MsgMetadataRemoved [u "album"; u "trip"; u "c.png"]
                     [u "out"; u "trip"; u "c.png"]);
                  (INFO, MsgMetadataRemoved [u "album"; u "a.png"] [u "out"; u "a.png"])]
      ∧ fs w' !! [u "out"; u "trip"; u "c.png"] = Some (NFile [x89; x00; x09] (new_attr w'))
      ∧ fs w' !! [u "out"; u "broken.jpg"] = None
  | (Raise _, _) => False
  end.
Proof. vm_compute. done. Qed.

(* --------------------------------------------------------------------- *)
(** ** What the remover leaves alone *)
(* --------------------------------------------------------------------- *)

Section Preservation.
Context `{Env}.

Lemma preserves_weaken {A} (P Q : Path → Node → Prop) (m : Py A) :
  (∀ q n, P q n → Q q n) → preserves Q m → preserves P m.
Proof. intros HPQ Hm w r w' Hrun q n Hp. apply (Hm w r w' Hrun). by apply HPQ. Qed.

Lemma preserves_bind {A B} P (m : Py A) (k : A → Py B) :
  preserves P m → (∀ a, preserves P (k a)) → preserves P (bind m k).
Proof.
  intros Hm Hk w r w' Hrun q n Hp Hq. unfold bind in Hrun.
  destruct (m w) as [[a|e] w1] eqn:E.
  - apply (Hk a _ _ _ Hrun q n Hp). by apply (Hm _ _ _ E).
  - injection Hrun as _ <-. by apply (Hm _ _ _ E).
Qed.

Lemma preserves_pure {A} P (m : Py A) :
  (∀ w, fs (m w).2 = fs w) → preserves P m.
Proof.
  intros Hm w r w' Hrun q n _ Hq. specialize (Hm w). rewrite Hrun in Hm.
  cbn in Hm. by rewrite Hm.
Qed.

Lemma preserves_try_except {A} P (m : Py A) (h : exn → Py A) :
  preserves P m → (∀ e, preserves P (h e)) → preserves P (try_except m h).
Proof.
  intros Hm Hh w r w' Hrun q n Hp Hq. unfold try_except in Hrun.
  destruct (m w) as [[a|e] w1] eqn:E.
  - injection Hrun as _ <-. by apply (Hm _ _ _ E).
  - apply (Hh e _ _ _ Hrun q n Hp). by apply (Hm _ _ _ E).
Qed.

Lemma preserves_for_each {A B} P (items : list A) (body : B → A → Py B) (acc : B) :
  (∀ acc item, item ∈ items → preserves P (body acc item)) →
  preserves P (for_each items acc body).
Proof.
  revert acc. induction items as [|item rest IH]; intros acc Hbody.
  - by apply preserves_pure.
  - cbn [for_each]. apply preserves_bind.
    + apply Hbody. by left.
    + intros acc'. apply IH. intros ? ? ?. apply Hbody. by right.
Qed.

Lemma preserves_fault_point P : preserves P fault_point.
Proof.
  apply preserves_pure. intros w. unfold fault_point.
  by destruct (faults w) as [|[e|] rest].
Qed.

Lemma preserves_logger P lvl msg : preserves P (logger_log lvl msg).
Proof.
  apply preserves_pure. intros w. unfold logger_log. cbn. by destruct (_ <=? _)%nat.
Qed.

Lemma preserves_validate P p r wr : preserves P (_validate_file p r wr).
Proof.
  apply preserves_pure. intros w.
  unfold _validate_file, bind, path_exists, access_R, access_W, ret, raise.
  repeat match goal with |- context [if ?b then _ else _] => destruct b end; done.
Qed.

(** [mkdir] only adds directories where nothing was. *)
Lemma preserves_make_dirs P ps exist_ok : preserves P (make_dirs ps exist_ok).
Proof.
  induction ps as [|p rest IH]; [by apply preserves_pure|].
  cbn [make_dirs]. apply preserves_bind; [|intros; apply IH].
  intros w r w' Hrun q n _ Hq.
  destruct p as [|c t].
  { cbn in Hrun. destruct (_ || _); by injection Hrun as _ <-. }
  unfold node_at in Hrun at 1.
  destruct (fs w !! (c :: t)) as [[? ?|?]|] eqn:Hp.
  - by injection Hrun as _ <-.
  - destruct (_ || _); by injection Hrun as _ <-.
  - destruct (node_at w (path_parent (c :: t))) as [[? ?|?]|];
      injection Hrun as _ <-; try done.
    cbn. rewrite lookup_insert_ne; [done|]. intros <-. congruence.
Qed.

Lemma preserves_mkdir P p parents exist_ok : preserves P (mkdir p parents exist_ok).
Proof.
  apply preserves_bind; [apply preserves_fault_point|]. intros _.
  apply preserves_make_dirs.
Qed.

Lemma preserves_open_write P p : spares_files_at P p → preserves P (open_write p).
Proof.
  intros Hp. apply preserves_bind; [apply preserves_fault_point|]. intros _.
  intros w r w' Hrun q n Hq Hlook.
  destruct p as [|c t]; [by injection Hrun as _ <-|].
  unfold node_at in Hrun at 1.
  destruct (fs w !! (c :: t)) as [[d a|a]|] eqn:Hn.
  - destruct (writable a); injection Hrun as _ <-; [|done]. cbn.
    rewrite lookup_insert_ne; [done|]. intros <-.
    rewrite Hn in Hlook. injection Hlook as <-. by apply (Hp d a).
  - by injection Hrun as _ <-.
  - destruct (node_at w (path_parent (c :: t))) as [[? ?|?]|];
      injection Hrun as _ <-; try done.
    cbn. rewrite lookup_insert_ne; [done|]. intros <-. congruence.
Qed.

Lemma preserves_write_bytes P p data : spares_files_at P p → preserves P (write_bytes p data).
Proof.
  intros Hp. apply preserves_bind; [apply preserves_fault_point|]. intros _.
  intros w r w' Hrun q n Hq Hlook.
  destruct p as [|c t]; [by injection Hrun as _ <-|].
  unfold node_at in Hrun.
  destruct (fs w !! (c :: t)) as [[d a|a]|] eqn:Hn; injection Hrun as _ <-; try done.
  cbn. rewrite lookup_insert_ne; [done|]. intros <-.
  rewrite Hn in Hlook. injection Hlook as <-. by apply (Hp d a).
Qed.

Lemma preserves_unlink P p : spares_files_at P p → preserves P (unlink p).
Proof.
  intros Hp. apply preserves_bind; [apply preserves_fault_point|]. intros _.
  intros w r w' Hrun q n Hq Hlook.
  destruct p as [|c t]; [by injection Hrun as _ <-|].
  unfold node_at in Hrun.
  destruct (fs w !! (c :: t)) as [[d a|a]|] eqn:Hn; injection Hrun as _ <-; try done.
  cbn. rewrite lookup_delete_ne; [done|]. intros <-.
  rewrite Hn in Hlook. injection Hlook as <-. by apply (Hp d a).
Qed.

Lemma preserves_img_save P img output_path :
  spares_files_at P output_path → preserves P (img_save img output_path).
Proof.
  intros Hp. unfold img_save. destruct (existsb _ _); [by apply preserves_pure|].
  apply preserves_bind; [by apply preserves_pure|]. intros img'.
  destruct (pil_format _); [|by apply preserves_pure].
  apply preserves_bind; [by apply preserves_pure|]. intros existed.
  apply preserves_bind; [by apply preserves_open_write|]. intros _.
  apply preserves_try_except.
  - apply preserves_bind; [by apply preserves_pure|]. intros data.
    by apply preserves_write_bytes.
  - intros e. apply preserves_bind; [|intros; by apply preserves_pure].
    destruct existed; [by apply preserves_pure|].
    apply preserves_try_except; [by apply preserves_unlink|].
    intros e'. by destruct (bool_decide _); apply preserves_pure.
Qed.

Lemma preserves_remove_image_metadata P input_path output_path :
  spares_files_at P output_path →
  preserves P (_remove_image_metadata input_path output_path).
Proof.
  intros Hp. unfold _remove_image_metadata. apply preserves_try_except.
  - apply preserves_bind.
    { apply preserves_pure. intros w. unfold read_bytes.
      by destruct (node_at w input_path) as [[? ?|?]|]. }
    intros content. apply preserves_bind; [by apply preserves_pure|]. intros img.
    apply preserves_bind.
    { destruct (str_in _ _); by apply preserves_pure. }
    intros img1. apply preserves_bind; [by apply preserves_img_save|]. intros _.
    apply preserves_bind; [apply preserves_logger|]. intros _.
    by apply preserves_pure.
  - intros e. destruct (bool_decide _); by apply preserves_pure.
Qed.

Lemma preserves_remove_metadata_to P source dest :
  spares_files_at P dest →
  preserves P (remove_metadata source (Some dest) false).
Proof.
  intros Hp. unfold remove_metadata.
  apply preserves_bind; [apply preserves_validate|]. intros _.
  destruct (negb _); [by apply preserves_pure|]. cbn.
  by apply preserves_remove_image_metadata.
Qed.

Lemma preserves_remove_item P output_path item processed :
  spares_files_at P (destination output_path item) →
  preserves P (remove_item output_path item processed).
Proof.
  intros Hp. unfold remove_item. apply preserves_try_except.
  - apply preserves_bind; [apply preserves_mkdir|]. intros _.
    apply preserves_bind; [by apply preserves_remove_metadata_to|]. intros r.
    by apply preserves_pure.
  - intros e. apply preserves_bind; [apply preserves_logger|]. intros _.
    by apply preserves_pure.
Qed.

Lemma under_child (d : Path) (name : pystr) : under d (d ++ [name]).
Proof. by exists [name]. Qed.

Lemma under_trans_child (d : Path) (name : pystr) (q : Path) :
  under (d ++ [name]) q → under d q.
Proof.
  intros (rest & Hne & ->). exists (name :: rest). split; [done|].
  by rewrite <- app_assoc.
Qed.

Lemma spares_destination (d item : Path) :
  spares_files_at (outside_or_dir d) (destination d item).
Proof.
  intros data a [Hout|Hdir]; [|done]. apply Hout. apply under_child.
Qed.

Lemma preserves_open_directory P directory output_dir :
  preserves P (open_directory directory output_dir).
Proof.
  unfold open_directory.
  apply preserves_bind; [apply preserves_validate|]. intros _.
  apply preserves_bind; [by apply preserves_pure|]. intros d.
  destruct (negb d); [by apply preserves_pure|].
  apply preserves_bind; [apply preserves_mkdir|]. intros _.
  apply preserves_bind; [|intros; by apply preserves_pure].
  apply preserves_pure. intros w. unfold iterdir.
  by destruct (node_at w directory) as [[? ?|?]|].
Qed.

Lemma open_directory_output directory output_dir w out items w0 :
  open_directory directory output_dir w = (Ok (out, items), w0) →
  out = output_root directory output_dir.
Proof.
  unfold open_directory, bind, is_dir, ret, raise, output_root.
  destruct (_validate_file directory true false w) as [[[]|e] w1]; [|done].
  destruct (match node_at w1 directory with Some (NDir _) => true | _ => false end);
    cbn; [|done].
  destruct (mkdir _ false true w1) as [[[]|e] w2]; [|done].
  destruct (iterdir directory w2) as [[l|e] w3]; [|done].
  by intros [= <- _ _].
Qed.

Lemma preserves_directory_item recurse (out : Path) (recursive : bool)
    (acc : list Path) (item : Path) :
  (∀ sub, preserves (outside_or_dir (output_root item (Some sub)))
            (recurse item (Some sub) recursive)) →
  preserves (outside_or_dir out) (directory_item recurse out recursive acc item).
Proof.
  intros Hrec. unfold directory_item.
  apply preserves_bind; [by apply preserves_pure|]. intros d.
  destruct (d && recursive).
  - apply preserves_bind; [|intros; by apply preserves_pure].
    eapply preserves_weaken; [|apply Hrec].
    intros q' n' [Hout|Hdir]; [left|by right].
    intros Hu. apply Hout. by apply under_trans_child in Hu.
  - apply preserves_bind; [by apply preserves_pure|]. intros f.
    destruct (f && _); [|by apply preserves_pure].
    apply preserves_remove_item, spares_destination.
Qed.

Lemma preserves_directory_batch depth directory output_dir recursive :
  preserves (outside_or_dir (output_root directory output_dir))
    (remove_metadata_from_directory depth directory output_dir recursive).
Proof.
  revert directory output_dir.
  induction depth as [|depth IH]; intros directory output_dir.
  { by apply preserves_pure. }
  cbn [remove_metadata_from_directory].
  intros w r w' Hrun. unfold bind in Hrun.
  destruct (open_directory directory output_dir w) as [[[out items]|e] w0] eqn:Hopen.
  2:{ injection Hrun as _ <-. by apply (preserves_open_directory _ _ _ _ _ _ Hopen). }
  pose proof (open_directory_output _ _ _ _ _ _ Hopen) as ->.
  cbn [fst snd] in Hrun.
  assert (preserves (outside_or_dir (output_root directory output_dir))
            (for_each items []
               (directory_item (remove_metadata_from_directory depth)
                  (output_root directory output_dir) recursive))) as Hloop.
  { apply preserves_for_each. intros acc item _.
    apply preserves_directory_item. intros sub. apply IH. }
  intros q n Hq Hlook. apply (Hloop _ _ _ Hrun q n Hq).
  by apply (preserves_open_directory (outside_or_dir (output_root directory output_dir))
              _ _ _ _ _ Hopen q n Hq).
Qed.

(** X1.  A directory batch, flat or recursive, leaves alone everything that
    is not inside its output directory, and every directory wherever it is:
    such a node is there, unchanged, when the call ends, whether it returns
    or raises. *)
Theorem directory_batch_spares_outside_output
    (depth : nat) (directory : Path) (output_dir : option Path) (recursive : bool)
    (w w' : World) (r : Res (list Path)) (q : Path) (n : Node) :
  remove_metadata_from_directory depth directory output_dir recursive w = (r, w') →
  fs w !! q = Some n →
  ¬ under (output_root directory output_dir) q ∨ is_dir_node n →
  fs w' !! q = Some n.
Proof.
  intros Hrun Hlook Hq.
  by apply (preserves_directory_batch depth directory output_dir recursive w r w' Hrun q n).
Qed.

Lemma make_dirs_single_ok (p : Path) (w w' : World) (x : unit) :
  make_dirs [p] true w = (Ok x, w') → p ≠ [] → ∃ a, fs w' !! p = Some (NDir a).
Proof.
  intros Hrun Hne. destruct p as [|c t]; [done|]. revert Hrun.
  cbn [make_dirs]. unfold bind, ret. unfold node_at at 1.
  destruct (fs w !! (c :: t)) as [[? ?|a]|] eqn:Hp; try done.
  - cbn. intros [= _ <-]. eauto.
  - destruct (node_at w (path_parent (c :: t))) as [[? ?|?]|]; try done.
    intros [= _ <-]. cbn. rewrite lookup_insert_eq. eauto.
Qed.

Lemma mkdir_ok_is_dir (p : Path) (w w' : World) (x : unit) :
  mkdir p false true w = (Ok x, w') → p ≠ [] → ∃ a, fs w' !! p = Some (NDir a).
Proof.
  unfold mkdir, bind, fault_point.
  destruct (faults w) as [|[e|] rest]; try done; apply make_dirs_single_ok.
Qed.

Lemma iterdir_lists_child (directory : Path) (name : pystr) (w w' : World)
    (items : list Path) (a : Attr) :
  iterdir directory w = (Ok items, w') →
  fs w !! (directory ++ [name]) = Some (NDir a) →
  directory ++ [name] ∈ items ∧ w' = w.
Proof.
  unfold iterdir. destruct (node_at w directory) as [[? ?|?]|]; try done.
  intros [= <- <-] Hlook. split; [|done].
  apply list_elem_of_filter. split.
  - split; [by destruct directory|]. unfold path_parent. apply removelast_last.
  - apply list_elem_of_fmap. exists (directory ++ [name], NDir a). split; [done|].
    by apply elem_of_map_to_list.
Qed.

Lemma loop_raises_at_own_output depth (out : Path) (a : Attr) :
  out ≠ [] →
  (∀ directory name w, ∃ e w',
     remove_metadata_from_directory depth directory (Some (directory ++ [name])) true w
     = (Raise e, w')) →
  ∀ items acc w,
    out ∈ items → fs w !! out = Some (NDir a) →
    ∃ e w', for_each items acc
              (directory_item (remove_metadata_from_directory depth) out true) w
            = (Raise e, w').
Proof.
  intros Hne IHd items. induction items as [|item rest IH]; intros acc w Hin Hlook.
  { by apply elem_of_nil in Hin. }
  cbn [for_each]. unfold bind at 1.
  destruct (decide (item = out)) as [->|Hother].
  - unfold directory_item, bind, is_dir.
    assert (node_at w out = Some (NDir a)) as -> by (by destruct out).
    cbn [andb]. unfold path_join.
    destruct (IHd out (path_name out) w) as (e & w' & ->). by exists e, w'.
  - destruct (directory_item _ out true acc item w) as [[acc'|e] w1] eqn:Hitem;
      [|by exists e, w1].
    apply IH.
    + apply elem_of_cons in Hin as [Heq|Hin]; [congruence|done].
    + apply (preserves_directory_item (remove_metadata_from_directory depth)
               out true acc item
               (λ sub, preserves_directory_batch depth item (Some sub) true)
               _ _ _ Hitem out (NDir a)); [by right|done].
Qed.

(** X2.  A recursive batch whose output directory lies directly inside the
    directory it processes (as the default [clean_metadata] does) meets its
    own output directory among the entries and descends into it, again and
    again: the call never returns a result, whatever the depth allowed. *)
Theorem recursive_batch_into_own_output_never_returns
    (depth : nat) (directory : Path) (name : pystr) (w : World) :
  (∃ e w', remove_metadata_from_directory depth directory
             (Some (path_join directory name)) true w = (Raise e, w'))
  ∧ (∃ e w', remove_metadata_from_directory depth directory None true w
             = (Raise e, w')).
Proof.
  assert (∀ depth directory name w, ∃ e w',
            remove_metadata_from_directory depth directory
              (Some (directory ++ [name])) true w = (Raise e, w')) as Hsome.
  { clear. intros depth. induction depth as [|depth IH]; intros directory name w.
    { cbn. unfold raise. eauto. }
    cbn [remove_metadata_from_directory]. unfold bind.
    destruct (open_directory directory (Some (directory ++ [name])) w)
      as [[[out items]|e] w0] eqn:Hopen; [|eauto].
    pose proof (open_directory_output _ _ _ _ _ _ Hopen) as ->.
    cbn [fst snd output_root default].
    revert Hopen. unfold open_directory, bind, is_dir, ret, raise.
    destruct (_validate_file directory true false w) as [[[]|e] w1]; [|done].
    destruct (match node_at w1 directory with Some (NDir _) => true | _ => false end);
      cbn; [|done].
    destruct (mkdir _ false true w1) as [[[]|e] w2] eqn:Hmk; [|done].
    apply mkdir_ok_is_dir in Hmk as [a Ha]; [|by destruct directory].
    destruct (iterdir directory w2) as [[l|e] w3] eqn:Hit; [|done].
    destruct (iterdir_lists_child _ _ _ _ _ _ Hit Ha) as [Hin ->].
    intros [= <- <-].
    apply (loop_raises_at_own_output depth (directory ++ [name]) a);
      [by destruct directory|exact IH|done|done]. }
  split; [apply Hsome|].
  destruct depth as [|depth]; [cbn; unfold raise; eauto|].
  destruct (Hsome (S depth) directory (u "clean_metadata") w) as (e & w' & Hrun).
  exists e, w'. rewrite <- Hrun. reflexivity.
Qed.

End Preservation.

Lemma directory_batch_spares_outside_output_witness :
  let w' := (remove_metadata_from_directory (H := example_env) 10 [u "album"]
               (Some [u "out"]) true (example_world [])).2 in
  fs w' !! [u "album"; u "a.png"] = Some (NFile photo example_attr)
  ∧ fs w' !! [u "album"; u "trip"] = Some (NDir example_attr).
Proof.
  cbv zeta.
  destruct (remove_metadata_from_directory (H := example_env) 10 [u "album"]
              (Some [u "out"]) true (example_world [])) as [r w'] eqn:Hrun.
  split; apply (directory_batch_spares_outside_output (H := example_env)
                  _ _ _ _ _ _ _ _ _ Hrun).
  - vm_compute. reflexivity.
  - left. intros (rest & _ & Heq). discriminate Heq.
  - vm_compute. reflexivity.
  - by right.
Defined.

(* --------------------------------------------------------------------- *)
(** ** Removal from one file: outcomes *)
(* --------------------------------------------------------------------- *)

Section RemovalOutcomes.
Context `{Env}.

Lemma sibling_differs_any (p : Path) (tag : pystr) : tag ≠ [] → sibling p tag ≠ p.
Proof.
  intros Htag. destruct p as [|c t]; [by destruct tag|].
  by apply sibling_differs.
Qed.

Lemma validate_outcome (p : Path) (check_read check_write : bool) (w : World) :
  (_validate_file p check_read check_write w = (Ok (), w)
   ∧ ∃ n, node_at w p = Some n
          ∧ (check_read = true → readable (node_attr n) = true)
          ∧ (check_write = true → writable (node_attr n) = true))
  ∨ (∃ text, _validate_file p check_read check_write w
             = (Raise (Exn FileOperationError text None), w)
     ∧ ¬ ∃ n, node_at w p = Some n
              ∧ (check_read = true → readable (node_attr n) = true)
              ∧ (check_write = true → writable (node_attr n) = true)).
Proof.
  unfold _validate_file, bind, path_exists, access_R, access_W, ret, raise.
  destruct (node_at w p) as [n|] eqn:Hn.
  - rewrite bool_decide_eq_true_2 by eauto. cbn [negb].
    destruct check_read, (readable (node_attr n)) eqn:Hr;
      repeat (first [rewrite Hn | rewrite Hr | progress cbn]);
      try (right; eexists; split; [reflexivity|];
           intros (n' & [= <-] & Hrd & _); specialize (Hrd eq_refl); congruence);
      destruct check_write, (writable (node_attr n)) eqn:Hw;
      repeat (first [rewrite Hn | rewrite Hw | progress cbn]);
      try (right; eexists; split; [reflexivity|];
           intros (n' & [= <-] & _ & Hwr); specialize (Hwr eq_refl); congruence);
      left; (split; [reflexivity|]); exists n; repeat split; congruence.
  - rewrite bool_decide_eq_false_2 by (by intros [? ?]). cbn.
    right. eexists. split; [reflexivity|]. by intros (n & ? & _).
Qed.

Lemma write_bytes_ok_file (p : Path) (data : list byte) (w w' : World) (x : unit) :
  write_bytes p data w = (Ok x, w') → ∃ d a, fs w' !! p = Some (NFile d a).
Proof.
  unfold write_bytes, bind, fault_point.
  assert (∀ w0, match node_at w0 p with
                | Some (NFile old a) =>
                    (Ok (), set_fs (<[p := NFile (old ++ data) a]>) w0)
                | _ => (Raise (os_error OSError), w0)
                end = (Ok x, w') → ∃ d a, fs w' !! p = Some (NFile d a)) as Hstep.
  { intros w0. destruct (node_at w0 p) as [[old a|a]|]; try done.
    intros [= _ <-]. cbn. rewrite lookup_insert_eq. eauto. }
  destruct (faults w) as [|[e|] rest]; try done; apply Hstep.
Qed.

Lemma img_save_ok_file (img : Image) (p : Path) (w w' : World) (x : unit) :
  img_save img p w = (Ok x, w') → ∃ d a, fs w' !! p = Some (NFile d a).
Proof.
  unfold img_save. destruct (existsb _ _); [done|].
  unfold bind at 1, lift at 1. destruct (pil_load img) as [img'|e]; [|done].
  destruct (pil_format _) as [format|]; [|done].
  unfold bind at 1, path_exists at 1.
  unfold bind at 1. destruct (open_write p w) as [[[]|e] w1]; [|done].
  unfold try_except.
  destruct (bind (lift (pil_encode img' format _)) _ w1) as [[[]|e] w2] eqn:Hbody.
  - intros [= _ <-]. revert Hbody. unfold bind, lift.
    destruct (pil_encode img' format _) as [data|e]; [|done].
    apply write_bytes_ok_file.
  - unfold bind.
    destruct ((if bool_decide (is_Some (node_at w p)) then ret ()
               else try_except_if _ (unlink p) _) w2) as [[[]|e'] w3]; done.
Qed.

Lemma remove_image_metadata_outcome (input_path output_path : Path) (w : World) :
  match _remove_image_metadata input_path output_path w with
  | (Ok r, w') =>
      r = output_path ∧ ∃ d a, fs w' !! output_path = Some (NFile d a)
  | (Raise e, w') =>
      (exn_class e = UnsupportedMediaError
       ∧ (exn_class <$> exn_cause e) = Some UnidentifiedImageError)
      ∨ (exn_class e = MetadataRemovalError
         ∧ ∃ c, exn_cause e = Some c ∧ exn_class c ≠ UnidentifiedImageError)
  end.
Proof.
  destruct (_remove_image_metadata input_path output_path w) as [[r|e] w'] eqn:Hrun.
  - pose proof (remove_image_metadata_returns_output _ _ _ _ _ Hrun) as ->.
    split; [done|]. revert Hrun.
    unfold _remove_image_metadata, try_except.
    destruct (bind (read_bytes input_path) _ w) as [[r|e] w1] eqn:Hbody.
    2:{ case_bool_decide; by unfold raise. }
    intros [= _ <-]. revert Hbody. unfold bind at 1.
    destruct (read_bytes input_path w) as [[content|e] w2]; [|done].
    unfold bind at 1. destruct (lift (pil_open content) w2) as [[img|e] w3]; [|done].
    unfold bind at 1.
    destruct ((if str_in (img_mode img) [u "RGB"; u "RGBA"] then ret img
               else lift (pil_convert img (u "RGB"))) w3) as [[img1|e] w4]; [|done].
    unfold bind at 1.
    destruct (img_save img1 output_path w4) as [[[]|e] w5] eqn:Hsave; [|done].
    apply img_save_ok_file in Hsave as (d & a & Hfile).
    unfold bind, logger_log, ret. intros [= _ <-].
    exists d, a. by destruct (_ <=? _)%nat.
  - revert Hrun. unfold _remove_image_metadata, try_except.
    destruct (bind (read_bytes input_path) _ w) as [[r|e0] w1]; [done|].
    case_bool_decide as Hc; unfold raise; intros [= <- _]; cbn.
    + left. by rewrite Hc.
    + right. split; [done|]. by exists e0.
Qed.

(** X3.  Removal to an explicit or derived output changes the file system
    at the destination only; with the derived output the source file is as
    it was, whether the call returns or raises.  When the call returns, it
    returns the destination, which is then a regular file; when it raises,
    the error is one of the module's own. *)
Theorem removal_to_output_outcome (source : Path) (output : option Path) (w : World) :
  let dest := default (sibling source (u "_clean")) output in
  match remove_metadata source output false w with
  | (r, w') =>
      (∀ q, q ≠ dest → fs w' !! q = fs w !! q)
      ∧ (output = None → fs w' !! source = fs w !! source)
      ∧ match r with
        | Ok p => p = dest ∧ ∃ d a, fs w' !! dest = Some (NFile d a)
        | Raise e =>
            exn_class e ∈ [FileOperationError; UnsupportedMediaError; MetadataRemovalError]
        end
  end.
Proof.
  cbv zeta.
  destruct (remove_metadata source output false w) as [r w'] eqn:Hrun.
  assert (∀ q, q ≠ default (sibling source (u "_clean")) output →
               fs w' !! q = fs w !! q) as Hfoot.
  { revert Hrun. unfold remove_metadata, bind.
    destruct (validate_outcome source true false w) as [[-> _]|(text & -> & _)];
      [|by intros [= _ <-]].
    destruct (negb _); [by intros [= _ <-]|]. cbn [andb].
    intros Hrun q Hq. by apply (remove_image_metadata_footprint _ _ _ _ _ Hrun). }
  split; [done|]. split.
  { intros ->. apply Hfoot. cbn. intros E. symmetry in E. revert E.
    by apply sibling_differs_any. }
  revert Hrun. unfold remove_metadata, bind.
  destruct (validate_outcome source true false w) as [[-> _]|(text & -> & _)].
  2:{ intros [= <- _]. cbn. set_solver. }
  destruct (negb _).
  { unfold raise. intros [= <- _]. cbn. set_solver. }
  cbn [andb]. intros Hrun.
  pose proof (remove_image_metadata_outcome source
                (default (sibling source (u "_clean")) output) w) as Ho.
  rewrite Hrun in Ho. destruct r as [p|e]; [done|].
  destruct Ho as [[-> _]|[-> _]]; set_solver.
Qed.

End RemovalOutcomes.

Lemma removal_to_output_outcome_witness :
  let w' := (remove_metadata (H := example_env) [u "photo.png"] None false
               (example_world [])).2 in
  fs w' !! [u "photo.png"] = fs (example_world []) !! [u "photo.png"]
  ∧ fs w' !! [u "old.png"] = fs (example_world []) !! [u "old.png"].
Proof.
  cbv zeta.
  pose proof (removal_to_output_outcome (H := example_env) [u "photo.png"] None
                (example_world [])) as Hout.
  cbv zeta in Hout.
  destruct (remove_metadata (H := example_env) [u "photo.png"] None false
              (example_world [])) as [r w'].
  destruct Hout as (Hfoot & Hsrc & _). split.
  - by apply Hsrc.
  - apply Hfoot. vm_compute. discriminate.
Defined.

Section InPlaceOutcome.
Context `{Env}.

Lemma rename_footprint (src dst : Path) (w w' : World) r :
  rename src dst w = (r, w') →
  (∀ q, q ≠ src → q ≠ dst → fs w' !! q = fs w !! q)
  ∧ (∀ x, r = Ok x → src ≠ dst →
       fs w' !! src = None ∧ ∃ d a, fs w' !! dst = Some (NFile d a)).
Proof.
  unfold rename, bind, fault_point.
  assert (∀ w0, fs w0 = fs w →
     match node_at w0 src with
     | Some (NFile data a) =>
         match node_at w0 dst with
         | Some (NDir _) => (Raise (os_error IsADirectoryError), w0)
         | _ =>
             match node_at w0 (path_parent dst) with
             | Some (NDir _) =>
                 (Ok (), set_fs (λ m, <[dst := NFile data a]> (delete src m)) w0)
             | Some (NFile _ _) => (Raise (os_error NotADirectoryError), w0)
             | None => (Raise (os_error FileNotFoundError), w0)
             end
         end
     | Some (NDir _) => (Raise (os_error OSError), w0)
     | None => (Raise (os_error FileNotFoundError), w0)
     end = (r, w') →
     (∀ q, q ≠ src → q ≠ dst → fs w' !! q = fs w !! q)
     ∧ (∀ x, r = Ok x → src ≠ dst →
          fs w' !! src = None ∧ ∃ d a, fs w' !! dst = Some (NFile d a))) as Hstep.
  { intros w0 Hfs.
    destruct (node_at w0 src) as [[data a|a]|];
      try (intros [= <- <-]; rewrite Hfs; split; [done|]; by intros x [=]).
    destruct (node_at w0 dst) as [[? ?|?]|];
      try (intros [= <- <-]; rewrite Hfs; split; [done|]; by intros x [=]);
      destruct (node_at w0 (path_parent dst)) as [[? ?|?]|];
      try (intros [= <- <-]; rewrite Hfs; split; [done|]; by intros x [=]);
      intros [= <- <-]; cbn; rewrite Hfs; (split;
        [intros q Hs Hd; by rewrite lookup_insert_ne, lookup_delete_ne
        |intros x _ Hne; rewrite lookup_insert_ne, lookup_delete_eq, lookup_insert_eq by done;
         eauto]). }
  destruct (faults w) as [|[e|] rest].
  - by apply Hstep.
  - intros [= <- <-]. split; [done|]. by intros x [=].
  - by apply Hstep.
Qed.

(** X4.  In-place removal changes the file system at the file and at its
    [_temp] sibling only.  When it returns, it returns the source path,
    which is a regular file, and the temporary sibling is gone; when it
    raises, the error is one of the module's own. *)
Theorem in_place_outcome (source : Path) (w : World) :
  let temp := sibling source (u "_temp") in
  match remove_metadata source None true w with
  | (r, w') =>
      (∀ q, q ≠ source → q ≠ temp → fs w' !! q = fs w !! q)
      ∧ match r with
        | Ok p =>
            p = source ∧ fs w' !! temp = None
            ∧ ∃ d a, fs w' !! source = Some (NFile d a)
        | Raise e =>
            exn_class e ∈ [FileOperationError; UnsupportedMediaError; MetadataRemovalError]
        end
  end.
Proof.
  cbv zeta. unfold remove_metadata, bind at 1.
  destruct (validate_outcome source true true w) as [[-> _]|(text & -> & _)].
  2:{ split; [done|]. cbn. repeat constructor. }
  destruct (negb _).
  { split; [done|]. cbn. repeat constructor. }
  rewrite bool_decide_eq_false_2 by (by intros [? ?]). cbn [andb].
  unfold bind at 1.
  pose proof (remove_image_metadata_outcome source (sibling source (u "_temp")) w) as Ho.
  destruct (_remove_image_metadata source (sibling source (u "_temp")) w)
    as [[res|e] w1] eqn:Hwrite.
  2:{ split.
      - intros q _ Hq. by apply (remove_image_metadata_footprint _ _ _ _ _ Hwrite).
      - destruct Ho as [[-> _]|[-> _]]; repeat constructor. }
  pose proof (remove_image_metadata_footprint _ _ _ _ _ Hwrite) as Hfoot1.
  unfold try_except, bind at 1.
  destruct (unlink source w1) as [[[]|e] w2] eqn:Hu.
  2:{ apply unlink_raise_keeps in Hu as (Hfs & _). unfold raise. split.
      - intros q _ Hq. rewrite Hfs. by apply Hfoot1.
      - cbn. repeat constructor. }
  apply unlink_ok_fs in Hu.
  unfold bind at 1.
  destruct (rename (sibling source (u "_temp")) source w2) as [[[]|e] w3] eqn:Hre.
  - destruct (rename_footprint _ _ _ _ _ Hre) as [Hfoot3 Hok].
    destruct (Hok () eq_refl) as (Hgone & Hfile); [by apply sibling_differs_any|].
    unfold ret. split; [|done].
    intros q Hs Ht. rewrite Hfoot3, Hu, lookup_delete_ne by done. by apply Hfoot1.
  - destruct (rename_footprint _ _ _ _ _ Hre) as [Hfoot3 _].
    unfold raise. split; [|cbn; repeat constructor].
    intros q Hs Ht. rewrite Hfoot3, Hu, lookup_delete_ne by done. by apply Hfoot1.
Qed.

(** X5.  Asking for in-place removal together with an output path never
    succeeds and never changes anything: the call raises and leaves the
    world as it was.  The error is [InvalidInputError] exactly when the file
    exists, is readable and writable and has an image extension; otherwise
    validation or the extension test has raised first. *)
Theorem in_place_with_output_rejected (source output : Path) (w : World) :
  ∃ e, remove_metadata source (Some output) true w = (Raise e, w)
       ∧ (exn_class e = InvalidInputError ↔
          (∃ n, node_at w source = Some n
                ∧ readable (node_attr n) = true ∧ writable (node_attr n) = true)
          ∧ _is_supported source (Some (u "image")) = true).
Proof.
  unfold remove_metadata, bind, raise.
  destruct (validate_outcome source true true w)
    as [[-> (n & Hn & Hr & Hw)]|(text & -> & Hno)].
  - destruct (_is_supported source (Some (u "image"))) eqn:Hsup; cbn [negb].
    + rewrite bool_decide_eq_true_2 by eauto. cbn [andb].
      eexists. split; [reflexivity|]. cbn. split; [|done].
      intros _. split; [|done]. exists n. auto.
    + eexists. split; [reflexivity|]. cbn. split; [done|]. by intros [_ ?].
  - eexists. split; [reflexivity|]. cbn. split; [done|].
    intros [(n & Hn & Hr & Hw) _]. exfalso. apply Hno. exists n. auto.
Qed.

Lemma supported_image_iff (p : Path) :
  _is_supported p (Some (u "image")) = true ↔ classify_path p = KImage.
Proof.
  unfold _is_supported, classify_path, classify. cbv zeta.
  change (u "image") with (0x69 :: u "mage") at 1.
  cbv iota beta.
  change (0x69 :: u "mage") with (u "image").
  destruct (str_in (_get_extension p) (table_get (u "image") SUPPORTED_EXTENSIONS)).
  - done.
  - split; [done|]. by repeat destruct (str_in _ _).
Qed.

(** X6.  Removal is for images only.  For a file that passes validation
    and whose kind is not image (a PDF, an audio or video file, or an
    unsupported one), [remove_metadata] raises [UnsupportedMediaError] in
    every mode and leaves the world as it was. *)
Theorem removal_rejects_other_kinds (source : Path) (output : option Path)
    (in_place : bool) (w : World) (n : Node) :
  node_at w source = Some n →
  readable (node_attr n) = true →
  (in_place = true → writable (node_attr n) = true) →
  classify_path source ≠ KImage →
  remove_metadata source output in_place w
  = (Raise (Exn UnsupportedMediaError "Unsupported file type for metadata removal: " None), w).
Proof.
  intros Hn Hr Hw Hkind. unfold remove_metadata, bind.
  destruct (validate_outcome source true in_place w) as [[-> _]|(text & _ & Hno)].
  2:{ exfalso. apply Hno. exists n. auto. }
  destruct (_is_supported source (Some (u "image"))) eqn:Hsup; [|done].
  by apply supported_image_iff in Hsup.
Qed.

(** X7.  Validation reads and never writes: [_validate_file] leaves the
    world as it was; it returns exactly when the path exists and has the
    permissions asked for, and otherwise raises [FileOperationError]. *)
Theorem validation_outcome (p : Path) (check_read check_write : bool) (w : World) :
  let permitted n :=
    implb check_read (readable (node_attr n))
    && implb check_write (writable (node_attr n)) in
  match node_at w p with
  | Some n =>
      if permitted n
      then _validate_file p check_read check_write w = (Ok (), w)
      else ∃ text, _validate_file p check_read check_write w
                   = (Raise (Exn FileOperationError text None), w)
  | None =>
      _validate_file p check_read check_write w
      = (Raise (Exn FileOperationError "Path does not exist: " None), w)
  end.
Proof.
  cbv zeta.
  destruct (validate_outcome p check_read check_write w)
    as [[Hrun (n & Hn & Hr & Hw)]|(text & Hrun & Hno)].
  - rewrite Hn.
    destruct check_read; [rewrite (Hr eq_refl)|]; (destruct check_write;
      [rewrite (Hw eq_refl)|]); cbn; try done; by destruct (readable _).
  - destruct (node_at w p) as [n|] eqn:Hn.
    + destruct (_ && _) eqn:Hp; [|eauto].
      exfalso. apply Hno. exists n. split; [done|].
      apply andb_true_iff in Hp as [Hr Hw].
      split; intros ->; [exact Hr|exact Hw].
    + revert Hrun. unfold _validate_file, bind, path_exists, raise. rewrite Hn.
      rewrite bool_decide_eq_false_2 by (by intros [? ?]). done.
Qed.

End InPlaceOutcome.

Lemma in_place_outcome_witness :
  let w' := (remove_metadata (H := example_env) [u "photo.png"] None true
               (example_world [None; None; Some (os_error PermissionError)])).2 in
  fs w' !! [u "old.png"] = fs (example_world []) !! [u "old.png"].
Proof.
  cbv zeta.
  pose proof (in_place_outcome (H := example_env) [u "photo.png"]
                (example_world [None; None; Some (os_error PermissionError)])) as Hout.
  cbv zeta in Hout.
  destruct (remove_metadata (H := example_env) [u "photo.png"] None true _) as [r w'].
  destruct Hout as [Hfoot _]. cbn [snd].
  rewrite Hfoot; [reflexivity| |]; vm_compute; discriminate.
Defined.

Lemma removal_rejects_other_kinds_witness :
  remove_metadata (H := example_env) [u "notes.txt"] None true (example_world [])
  = (Raise (Exn UnsupportedMediaError "Unsupported file type for metadata removal: " None),
     example_world []).
Proof.
  apply (removal_rejects_other_kinds (H := example_env) _ _ _ _
           (NFile [x68; x69] example_attr)).
  - vm_compute. reflexivity.
  - reflexivity.
  - reflexivity.
  - vm_compute. discriminate.
Defined.

(* --------------------------------------------------------------------- *)
(** ** Downloads *)
(* --------------------------------------------------------------------- *)

Section DownloadProperties.
Context `{Env}.

(** X8.  A download that the server refuses leaves nothing behind: when
    the request raises, or answers with a status from 400 to 599,
    [_download_url] raises without creating a file.  A
    [RequestException] is delivered as [NetworkError]; any other exception
    of the request passes through unchanged. *)
Theorem refused_download_writes_nothing (url : pystr) (w : World) :
  match http_get url with
  | Raise e =>
      _download_url url w
      = (Raise (if bool_decide (exn_class e = RequestException)
                then Exn NetworkError "Failed to download URL: " (Some e)
                else e), w)
  | Ok response =>
      if (400 <=? status_code response) && (status_code response <? 600)
      then _download_url url w
           = (Raise (Exn NetworkError "Failed to download URL: "
                       (Some (Exn RequestException "HTTPError" None))), w)
      else True
  end.
Proof.
  destruct (http_get url) as [response|e] eqn:Hget.
  - destruct (_ && _) eqn:Hstatus; [|done].
    unfold _download_url, try_except_if, try_except, is_request_exception.
    unfold bind at 1, lift at 1. rewrite Hget, Hstatus.
    unfold bind at 1, raise. done.
  - unfold _download_url, try_except_if, try_except, is_request_exception.
    unfold bind at 1, lift at 1. rewrite Hget. unfold raise.
    by case_bool_decide.
Qed.

Lemma write_chunks (temp_file : Path) (chunks : list (list byte)) (w : World)
    (data : list byte) (a : Attr) :
  faults w = [] → fs w !! temp_file = Some (NFile data a) → temp_file ≠ [] →
  ∃ w', for_each chunks ()
          (λ _ chunk, match chunk with [] => ret () | _ => write_bytes temp_file chunk end) w
        = (Ok (), w')
        ∧ fs w' = <[temp_file := NFile (data ++ concat chunks) a]> (fs w)
        ∧ faults w' = [] ∧ log w' = log w ∧ log_level w' = log_level w
        ∧ now_stamp w' = now_stamp w ∧ _file_info w' = _file_info w.
Proof.
  intros Hf Hlook Hne. revert w data Hf Hlook.
  induction chunks as [|chunk rest IH]; intros w data Hf Hlook.
  - exists w. cbn. rewrite app_nil_r, insert_id by done. done.
  - cbn [for_each concat]. unfold bind at 1.
    destruct chunk as [|b chunk].
    + unfold ret at 1. cbn [app]. by apply IH.
    + unfold write_bytes, bind, fault_point. rewrite Hf.
      assert (node_at w temp_file = Some (NFile data a)) as -> by (by destruct temp_file).
      destruct (IH (set_fs (<[temp_file := NFile (data ++ b :: chunk) a]>) w)
                  (data ++ b :: chunk)) as (w' & Hrun & Hfs & Hrest); [done| |].
      { cbn. by rewrite lookup_insert_eq. }
      exists w'. split; [exact Hrun|]. split; [|exact Hrest].
      rewrite Hfs. cbn. by rewrite insert_insert_eq, <- app_assoc.
Qed.

Lemma download_ok (url : pystr) (w : World) (response : Response) :
  http_get url = Ok response →
  (400 <=? status_code response) && (status_code response <? 600) = false →
  stream_error response = None →
  faults w = [] →
  let temp_file := temp_file_for (now_stamp w) (content_type_header response) in
  fs w !! temp_file = None →
  ∃ w', _download_url url w = (Ok temp_file, w')
        ∧ fs w' = <[temp_file := NFile (concat (body_chunks response)) (new_attr w)]> (fs w)
        ∧ faults w' = [] ∧ log w' = log w ∧ log_level w' = log_level w
        ∧ _file_info w' = _file_info w.
Proof.
  intros Hget Hstatus Hstream Hf temp_file Hfresh.
  unfold _download_url, try_except_if, try_except.
  unfold bind at 1, lift at 1. rewrite Hget, Hstatus.
  unfold bind at 1, ret at 1. unfold bind at 1.
  fold (temp_file_for (now_stamp w) (content_type_header response)). fold temp_file.
  unfold bind at 1, open_write, bind at 1, fault_point. rewrite Hf.
  assert (node_at w temp_file = None) as -> by done.
  cbn [path_parent removelast temp_file temp_file_for node_at]. fold temp_file.
  destruct (write_chunks temp_file (body_chunks response)
              (set_fs (<[temp_file := NFile [] (new_attr w)]>) w) [] (new_attr w))
    as (w' & Hrun & Hfs & Hf' & Hlog & Hlvl & Hstamp & Hinfo); [done| |done|].
  { cbn. by rewrite lookup_insert_eq. }
  unfold bind at 1. rewrite Hrun, Hstream. unfold bind, ret.
  exists w'. split; [done|]. split; [|done].
  rewrite Hfs. cbn. by rewrite insert_insert_eq.
Qed.

(** X9.  A completed download is stored whole: with an accepted status, an
    uninterrupted body and no failing system call, [_download_url] returns
    the path [mmt_temp_<timestamp><ext>] in the working directory, whose
    content is the concatenation of the chunks received, and changes
    nothing else. *)
Theorem download_stores_body (url : pystr) (w : World) (response : Response) :
  http_get url = Ok response →
  (400 <=? status_code response) && (status_code response <? 600) = false →
  stream_error response = None →
  faults w = [] →
  let temp_file := temp_file_for (now_stamp w) (content_type_header response) in
  fs w !! temp_file = None →
  ∃ w', _download_url url w = (Ok temp_file, w')
        ∧ fs w' !! temp_file = Some (NFile (concat (body_chunks response)) (new_attr w))
        ∧ (∀ q, q ≠ temp_file → fs w' !! q = fs w !! q)
        ∧ log w' = log w.
Proof.
  intros Hget Hstatus Hstream Hf temp_file Hfresh.
  destruct (download_ok url w response Hget Hstatus Hstream Hf Hfresh)
    as (w' & Hrun & Hfs & _ & Hlog & _).
  exists w'. split; [done|]. rewrite Hfs. split; [by rewrite lookup_insert_eq|].
  split; [|done]. intros q Hq. by rewrite lookup_insert_ne.
Qed.

End DownloadProperties.

Lemma download_stores_body_witness :
  ∃ w', _download_url (H := example_env) (u "https://example.com/a.png") (example_world [])
        = (Ok [u "mmt_temp_1714557600.25.png"], w')
        ∧ fs w' !! [u "mmt_temp_1714557600.25.png"]
          = Some (NFile photo (new_attr (example_world []))).
Proof.
  destruct (download_stores_body (H := example_env) (u "https://example.com/a.png")
              (example_world [])
              {| status_code := 200; content_type_header := Some (u "image/png; q=1");
                 body_chunks := [[x89; x03; x45; x78]; []; [x69; x0a; x0b; x0c]];
                 stream_error := None |})
    as (w' & Hrun & Hfile & _); try (vm_compute; reflexivity).
  exists w'. split; [exact Hrun|exact Hfile].
Defined.

Section InferredExtension.
Context `{Env}.

Lemma rfind_dot_app_dotted (a rest : pystr) :
  rfind_dot rest = None → rfind_dot (a ++ dot :: rest) = Some (length a).
Proof.
  intros Hrest. induction a as [|c a IH]; cbn.
  - by rewrite Hrest.
  - by rewrite IH.
Qed.

Lemma suffix_of_dotted_name (a rest : pystr) :
  a ≠ [] → rest ≠ [] → rfind_dot rest = None →
  path_suffix [a ++ dot :: rest] = dot :: rest.
Proof.
  intros Ha Hr Hrest. unfold path_suffix, path_name. cbn [List.last].
  rewrite rfind_dot_app_dotted by done.
  rewrite length_app. cbn [length].
  assert ((0 <? length a)%nat = true) as ->.
  { apply Nat.ltb_lt. destruct a; [done|cbn; lia]. }
  assert ((length a <? length a + S (length rest) - 1)%nat = true) as ->.
  { apply Nat.ltb_lt. destruct rest; [done|cbn; lia]. }
  cbn. by rewrite drop_app_length.
Qed.

(** The extensions the content-type table can yield. *)
Lemma inferred_extension_cases (content_type : pystr) (ext : pystr) :
  _get_extension_from_content_type content_type = Some ext →
  ext ∈ [u ".jpg"; u ".png"; u ".gif"; u ".pdf"; u ".mp3"; u ".mp4"; u ".mov"].
Proof.
  unfold _get_extension_from_content_type, content_type_extensions.
  cbn [List.find fst snd].
  repeat (case_bool_decide; [intros [= <-]; repeat constructor|]).
  done.
Qed.

Lemma temp_file_extension (stamp ext : pystr) :
  ext ∈ [u ".jpg"; u ".png"; u ".gif"; u ".pdf"; u ".mp3"; u ".mp4"; u ".mov"; u ".tmp"] →
  _get_extension [u "mmt_temp_" ++ stamp ++ ext] = ext.
Proof.
  intros Hin. unfold _get_extension.
  rewrite !elem_of_cons, elem_of_nil in Hin.
  assert (∃ rest, ext = dot :: rest ∧ rest ≠ [] ∧ rfind_dot rest = None
                  ∧ str_lower (dot :: rest) = dot :: rest) as (rest & -> & Hne & Hnd & Hlow).
  { repeat destruct Hin as [->|Hin]; try done;
      eexists; (split; [reflexivity|]); repeat split; done. }
  rewrite app_assoc, suffix_of_dotted_name; [done| |done|done].
  by destruct stamp.
Qed.

Lemma temp_file_unsupported (stamp : pystr) (content_type : option pystr) :
  _get_extension_from_content_type (before_semicolon (default [] content_type)) = None →
  classify_path (temp_file_for stamp content_type) = KUnsupported.
Proof.
  intros Hinf. unfold classify_path, temp_file_for. rewrite Hinf. cbn [default].
  rewrite temp_file_extension by (repeat constructor). by vm_compute.
Qed.

(** X10.  The extension given to a downloaded file decides its kind, and
    nothing else does: whatever the timestamp, the file's extension as the
    extractor reads it is the one inferred from the content type (or
    [.tmp]); a content type found in the table always yields a supported
    extension, and a content type not found always yields an unsupported
    file. *)
Theorem downloaded_file_kind (stamp : pystr) (content_type : option pystr) :
  let inferred :=
    _get_extension_from_content_type (before_semicolon (default [] content_type)) in
  _get_extension (temp_file_for stamp content_type) = default (u ".tmp") inferred
  ∧ (classify_path (temp_file_for stamp content_type) = KUnsupported ↔ inferred = None).
Proof.
  cbv zeta.
  pose proof (temp_file_unsupported stamp content_type) as Hunsupported.
  unfold classify_path, temp_file_for in *.
  destruct (_get_extension_from_content_type _) as [ext|] eqn:Hinf; cbn [default] in *.
  - apply inferred_extension_cases in Hinf.
    rewrite temp_file_extension.
    2:{ rewrite !elem_of_cons, elem_of_nil in Hinf.
        repeat destruct Hinf as [->|Hinf]; try done; repeat constructor. }
    split; [done|].
    split; [|done]. intros Hk. exfalso. revert Hk.
    rewrite !elem_of_cons, elem_of_nil in Hinf.
    repeat destruct Hinf as [->|Hinf]; try done; by vm_compute.
  - split; [by rewrite temp_file_extension by (repeat constructor)|].
    split; [done|]. intros _. by apply Hunsupported.
Qed.

Lemma extract_from_file_unsupported (p : Path) (w : World) (n : Node) :
  node_at w p = Some n → readable (node_attr n) = true →
  classify_path p = KUnsupported →
  ∃ info, _extract_from_file p w
          = (Raise (Exn UnsupportedMediaError "Unsupported file type: " None),
             set_file_info info w).
Proof.
  intros Hn Hr Hk. unfold classify_path in Hk.
  unfold _extract_from_file. unfold bind at 1.
  rewrite (validate_readable _ _ _ Hn Hr).
  unfold bind, _get_file_info, bind, stat. rewrite Hn, Hk.
  destruct n as [data a|a]; cbn; eauto.
Qed.

(** X11.  Extraction from a URL goes by the content type alone.  When the
    server's content type is not in the table (whatever the URL ends in),
    a download that completes is stored as [.tmp], found unsupported and
    deleted again: [extract] raises, and the file system is as before. *)
Theorem unknown_content_type_is_unsupported
    (source : Source) (w : World) (response : Response) :
  http_get (src_text source) = Ok response →
  (400 <=? status_code response) && (status_code response <? 600) = false →
  stream_error response = None →
  faults w = [] →
  _get_extension_from_content_type
    (before_semicolon (default [] (content_type_header response))) = None →
  fs w !! temp_file_for (now_stamp w) (content_type_header response) = None →
  ∃ w', extract source true w
        = (Raise (Exn MediaMetadataError "Metadata extraction failed: "
                    (Some (Exn UnsupportedMediaError "Unsupported file type: " None))), w')
        ∧ fs w' = fs w.
Proof.
  intros Hget Hstatus Hstream Hf Hinf Hfresh.
  destruct (download_ok (src_text source) w response Hget Hstatus Hstream Hf Hfresh)
    as (w1 & Hdl & Hfs1 & Hf1 & _).
  set (temp := temp_file_for (now_stamp w) (content_type_header response)) in *.
  assert (temp ≠ []) as Hne by done.
  destruct (extract_from_file_unsupported temp w1
              (NFile (concat (body_chunks response)) (new_attr w))) as [info Hex].
  { destruct temp; [done|]. cbn. rewrite Hfs1. by rewrite lookup_insert_eq. }
  { done. }
  { by apply temp_file_unsupported. }
  unfold extract, try_except, _extract_from_url. unfold bind at 1. rewrite Hdl.
  unfold try_finally, extract_downloaded. unfold bind at 1. rewrite Hex.
  unfold delete_temp_file, try_except, unlink, bind, fault_point.
  cbn [faults set_file_info]. rewrite Hf1.
  assert (node_at (set_file_info info w1) temp
          = Some (NFile (concat (body_chunks response)) (new_attr w))) as ->.
  { destruct temp; [done|]. cbn. rewrite Hfs1. by rewrite lookup_insert_eq. }
  unfold logger_log, raise. eexists. split; [reflexivity|].
  destruct (_ <=? _)%nat; cbn; rewrite Hfs1, delete_insert_eq; by apply delete_id.
Qed.

End InferredExtension.

Lemma content_type_kind_examples :
  classify_path (temp_file_for (u "1714557600.25") (Some (u "IMAGE/JPEG; charset=x"))) = KImage
  ∧ classify_path (temp_file_for (u "1714557600.25") (Some (u "image/webp"))) = KUnsupported
  ∧ classify_path [u "picture.webp"] = KImage
  ∧ classify_path (temp_file_for (u "1714557600.25") None) = KUnsupported.
Proof. vm_compute. done. Qed.


Lemma unknown_content_type_is_unsupported_witness :
  ∃ w', extract (H := webp_env)
          {| src_path := []; src_text := u "https://example.com/picture.webp" |}
          true (example_world [])
        = (Raise (Exn MediaMetadataError "Metadata extraction failed: "
                    (Some (Exn UnsupportedMediaError "Unsupported file type: " None))), w')
        ∧ fs w' = fs (example_world []).
Proof.
  apply (unknown_content_type_is_unsupported (H := webp_env) _ _ webp_response);
    vm_compute; reflexivity.
Defined.

(* --------------------------------------------------------------------- *)
(** ** More on the sanitizer *)
(* --------------------------------------------------------------------- *)

(** X12.  Sanitizing neither drops nor adds a field, and no field of the
    result holds None or a byte string. *)
Theorem sanitized_record_shape (metadata : Dict) :
  dom (_clean_metadata_dict metadata) = dom metadata
  ∧ ∀ key value, _clean_metadata_dict metadata !! key = Some value →
      value ≠ VNone ∧ ∀ b, value ≠ VBytes b.
Proof.
  rewrite clean_metadata_dict_fmap. split; [apply dom_fmap_L|].
  intros key value. rewrite lookup_fmap.
  destruct (metadata !! key) as [v|]; [|done]. cbn. intros [= <-].
  destruct v as [| | | |s|b|l|l|d]; cbn; try done.
  - by destruct s.
  - destruct (bytes_decode_replace_total b) as [s ->]. done.
  - by destruct l.
  - by destruct d.
Qed.

Lemma sanitized_record_shape_witness :
  let r : Dict := {[ u "title" := VNone; u "thumbnail" := VBytes [xff; xd8] ]} in
  match _clean_metadata_dict r !! u "thumbnail" with
  | Some value => value ≠ VNone ∧ value ≠ VBytes [xff; xd8]
  | None => False
  end.
Proof.
  cbv zeta.
  destruct (_clean_metadata_dict _ !! u "thumbnail") as [value|] eqn:Hv.
  - destruct (proj2 (sanitized_record_shape _) _ _ Hv) as [Hnone Hbytes].
    split; [exact Hnone|apply Hbytes].
  - vm_compute in Hv. discriminate Hv.
Defined.

Lemma utf8_strict_then_replace (bs : list N) (skip : nat) (s : pystr) :
  utf8_loop Strict skip bs = Ok s → utf8_loop Replace skip bs = Ok s.
Proof.
  revert skip s. induction bs as [|b rest IH]; intros skip s; [done|].
  destruct skip as [|k]; cbn [utf8_loop]; [|apply IH].
  destruct (utf8_step b rest) as [cp len|len]; [|done].
  destruct (utf8_loop Strict (len - 1) rest) as [s'|e] eqn:E; [|done].
  by rewrite (IH _ _ E).
Qed.

Lemma utf8_ascii (errors : ErrorMode) (bs : list N) :
  Forall (λ b, b < 0x80) bs → utf8_loop errors 0 bs = Ok bs.
Proof.
  induction 1 as [|b rest Hb _ IH]; [done|].
  cbn [utf8_loop]. unfold utf8_step.
  apply N.ltb_lt in Hb. rewrite Hb. cbn. by rewrite IH.
Qed.

(** X13.  Text stored as bytes comes out as that text: whenever the bytes
    are well-formed UTF-8 (strict decoding succeeds) the sanitizer yields
    exactly the decoded string, with no replacement; in particular bytes
    that are all ASCII are mapped to the same characters. *)
Theorem sanitize_wellformed_bytes (b : list byte) :
  (∀ s, bytes_decode Strict b = Ok s → clean_value (VBytes b) = VStr s)
  ∧ (Forall (λ x, Byte.to_N x < 0x80) b →
     clean_value (VBytes b) = VStr (Byte.to_N <$> b)).
Proof.
  split.
  - intros s Hs. cbn. unfold bytes_decode in *.
    by rewrite (utf8_strict_then_replace _ _ _ Hs).
  - intros Hascii. cbn. unfold bytes_decode.
    rewrite (utf8_ascii Replace); [done|].
    by apply Forall_fmap.
Qed.

Lemma sanitize_wellformed_bytes_witness :
  clean_value (VBytes [x43; x61; x6e; x6f; x6e]) = VStr (u "Canon")
  ∧ clean_value (VBytes [xc3; xa9]) = VStr [0xE9].
Proof.
  split.
  - refine (proj2 (sanitize_wellformed_bytes [x43; x61; x6e; x6f; x6e]) _).
    repeat constructor.
  - refine (proj1 (sanitize_wellformed_bytes [xc3; xa9]) _ _). vm_compute. reflexivity.
Defined.

Lemma low_bits (b k base q : N) :
  base = 2 ^ k * q → base <= b → b < base + 2 ^ k → N.land b (N.ones k) = b - base.
Proof.
  intros -> Hlo Hhi. rewrite N.land_ones. symmetry.
  apply (N.mod_unique b (2 ^ k) q); lia.
Qed.

Lemma cont_bits_value (b : N) : is_cont b = true → cont_bits b = b - 0x80.
Proof.
  unfold is_cont, cont_bits. rewrite andb_true_iff, !N.leb_le. intros [Hlo Hhi].
  apply (low_bits b 6 0x80 2); [reflexivity|lia|cbn; lia].
Qed.

Ltac step_cases :=
  repeat match goal with
         | |- context [if ?c then _ else _] => destruct c eqn:?
         | |- context [match ?l with [] => _ | _ :: _ => _ end] => destruct l
         end.

Ltac to_props :=
  repeat match goal with
         | H : (if ?c then _ else _) = false |- _ => destruct c eqn:?
         | H : _ || _ = false |- _ => apply orb_false_iff in H as [? ?]
         | H : negb _ = false |- _ => apply negb_false_iff in H
         | H : (_ <? _) = true |- _ => apply N.ltb_lt in H
         | H : (_ <? _) = false |- _ => apply N.ltb_ge in H
         | H : (_ =? _) = true |- _ => apply N.eqb_eq in H
         | H : (_ =? _) = false |- _ => apply N.eqb_neq in H
         end.

Lemma utf8_step_scalar (b0 : N) (rest : list N) (cp : N) (len : nat) :
  utf8_step b0 rest = Char cp len →
  cp <= 0x10FFFF ∧ (cp < 0xD800 ∨ 0xDFFF < cp).
Proof.
  unfold utf8_step. step_cases; try discriminate; intros [= <- _]; to_props;
    repeat match goal with
           | H : is_cont ?b = true |- _ =>
               rewrite (cont_bits_value b H);
               unfold is_cont in H; apply andb_true_iff in H as [? ?]
           | H : (_ <=? _) = true |- _ => apply N.leb_le in H
           end;
    rewrite ?N.shiftl_mul_pow2;
    change (2 ^ 6) with 64; change (2 ^ 12) with 4096; change (2 ^ 18) with 262144;
    change 31 with (N.ones 5); change 15 with (N.ones 4); change 7 with (N.ones 3).
  - lia.
  - rewrite (low_bits b0 5 0xC0 6) by (first [reflexivity | cbn; lia]). lia.
  - rewrite (low_bits b0 4 0xE0 14) by (first [reflexivity | cbn; lia]). lia.
  - rewrite (low_bits b0 4 0xE0 14) by (first [reflexivity | cbn; lia]). lia.
  - rewrite (low_bits b0 3 0xF0 30) by (first [reflexivity | cbn; lia]). lia.
  - rewrite (low_bits b0 3 0xF0 30) by (first [reflexivity | cbn; lia]). lia.
Qed.

Lemma utf8_loop_scalar (errors : ErrorMode) (bs : list N) (skip : nat) (s : pystr) :
  utf8_loop errors skip bs = Ok s →
  Forall (λ cp, cp <= 0x10FFFF ∧ (cp < 0xD800 ∨ 0xDFFF < cp)) s
  ∧ (length s <= length bs)%nat.
Proof.
  revert skip s. induction bs as [|b rest IH]; intros skip s.
  { intros [= <-]. split; [constructor|done]. }
  destruct skip as [|k]; cbn [utf8_loop].
  { destruct (utf8_step b rest) as [cp len|len] eqn:Hstep.
    - destruct (utf8_loop errors (len - 1) rest) as [s'|e] eqn:E; [|done].
      cbn. intros [= <-]. destruct (IH _ _ E) as [Hall Hlen].
      split; [|cbn; lia]. constructor; [|done].
      by apply (utf8_step_scalar _ _ _ _ Hstep).
    - destruct errors; [done|].
      destruct (utf8_loop Replace (len - 1) rest) as [s'|e] eqn:E; [|done].
      cbn. intros [= <-]. destruct (IH _ _ E) as [Hall Hlen].
      split; [|cbn; lia]. constructor; [|done].
      unfold REPLACEMENT_CHARACTER. lia. }
  intros Hs. destruct (IH _ _ Hs) as [Hall Hlen]. split; [done|cbn; lia].
Qed.

(** X14.  The text the sanitizer puts in place of a byte string is a proper
    Unicode string: every code point is at most U+10FFFF and none is a
    surrogate, and the text is no longer than the bytes were. *)
Theorem sanitized_bytes_are_scalar_values (b : list byte) (s : pystr) :
  clean_value (VBytes b) = VStr s →
  Forall (λ cp, cp <= 0x10FFFF ∧ (cp < 0xD800 ∨ 0xDFFF < cp)) s
  ∧ (length s <= length b)%nat.
Proof.
  cbn. destruct (bytes_decode Replace b) as [s'|e] eqn:Hd.
  - intros [= <-]. unfold bytes_decode in Hd.
    apply utf8_loop_scalar in Hd. by rewrite length_fmap in Hd.
  - destruct (bytes_decode_replace_total b) as [s' Hs]. congruence.
Qed.

Lemma sanitized_bytes_are_scalar_values_witness :
  let s : pystr := [0xFFFD; 0xFFFD; 0xFFFD; 0x41] in
  let b : list byte := [xed; xa0; x80; x41] in
  Forall (λ cp, cp <= 0x10FFFF ∧ (cp < 0xD800 ∨ 0xDFFF < cp)) s
  ∧ (length s <= length b)%nat.
Proof.
  cbv zeta. apply (sanitized_bytes_are_scalar_values [xed; xa0; x80; x41]).
  vm_compute. reflexivity.
Defined.

(* --------------------------------------------------------------------- *)
(** ** The facade: requests it rejects, options it ignores *)
(* --------------------------------------------------------------------- *)

Section FacadeProperties.
Context `{Env}.

(** X15.  An operation other than "extract" and "remove", and a removal
    from a URL, are rejected with [InvalidInputError] before anything is
    read or written: the only trace is the start marker and the failure
    marker in the log. *)
Theorem process_rejects_invalid_requests (depth : nat) (source : Source)
    (operation : pystr) (output : option Path) (kwargs : Options) (w : World) :
  (operation ≠ u "extract" ∧ operation ≠ u "remove")
  ∨ (operation = u "remove" ∧ is_url kwargs = true) →
  ∃ text,
    process depth source operation output kwargs w
    = (Raise (Exn InvalidInputError text None),
       (log_operation_end operation false (log_operation_start operation w).2).2).
Proof.
  intros Hbad.
  pose proof (process_markers depth source operation output kwargs w) as Hm.
  cbv zeta in Hm. revert Hm. unfold process_body.
  destruct Hbad as [[Hne Hnr]|[-> Hurl]].
  - rewrite !bool_decide_eq_false_2 by done. unfold exec, raise. eauto.
  - rewrite bool_decide_eq_false_2 by done.
    rewrite bool_decide_eq_true_2 by done. rewrite Hurl.
    unfold then_, exec, raise. eauto.
Qed.

(** X16.  [process] looks at [in_place] only for a file and at [recursive]
    only for a directory: removal from a directory runs the same batch
    whether or not in-place was asked for, and removal from a file is the
    same whether or not recursion was asked for. *)
Theorem process_ignores_inapplicable_options (depth : nat) (source : Source)
    (output : option Path) (url in_place1 in_place2 recursive1 recursive2 : bool)
    (w : World) :
  let remove ip rc :=
    process depth source (u "remove") output
      {| is_url := url; in_place := ip; recursive := rc |} w in
  match node_at w (src_path source) with
  | Some (NDir _) => remove in_place1 recursive1 = remove in_place2 recursive1
  | _ => remove in_place1 recursive1 = remove in_place1 recursive2
  end.
Proof.
  cbv zeta. unfold process, process_body.
  rewrite bool_decide_eq_false_2 by done. rewrite bool_decide_eq_true_2 by done.
  cbn [is_url in_place recursive].
  unfold call, then_, try_except_else, exec, assign, is_dir.
  cbn [log_operation_start logger_log].
  set (w0 := if (level_no (log_level w) <=? level_no INFO)%nat
             then add_log (INFO, MsgOperationStart (u "remove")) w else w).
  assert (node_at w0 (src_path source) = node_at w (src_path source)) as Hn.
  { unfold w0. by destruct (_ <=? _)%nat, (src_path source). }
  destruct url; cbn.
  { by destruct (node_at w (src_path source)) as [[? ?|?]|]. }
  rewrite Hn. by destruct (node_at w (src_path source)) as [[? ?|?]|].
Qed.

Lemma make_dirs_existing (ps : list Path) (w : World) :
  Forall (λ q, ∃ a, node_at w q = Some (NDir a)) ps →
  make_dirs ps true w = (Ok (), w).
Proof.
  induction 1 as [|p rest [a Hp] _ IH]; [done|].
  cbn [make_dirs]. unfold bind. by rewrite Hp.
Qed.

(** X17.  Saving a record: when the directories above the output path
    exist, the path is free or a writable file, the serializer returns and
    no system call fails, [_save_metadata] leaves at the output path exactly
    the serialized text — JSON when the suffix is [.json] in any case, the
    "key: value" lines otherwise — and changes nothing else. *)
Theorem save_metadata_writes_serialized_record
    (metadata : Dict) (output_path : Path) (w : World) (text : list byte) :
  faults w = [] →
  output_path ≠ [] →
  Forall (λ q, ∃ a, node_at w q = Some (NDir a))
         (ancestors_and_self (path_parent output_path)) →
  match fs w !! output_path with
  | None => True
  | Some (NFile _ a) => writable a = true
  | Some (NDir _) => False
  end →
  (if bool_decide (str_lower (path_suffix output_path) = u ".json")
   then json_dump metadata else text_dump metadata) = Ok text →
  ∃ w' a, _save_metadata metadata output_path w = (Ok (), w')
          ∧ fs w' !! output_path = Some (NFile text a)
          ∧ ∀ q, q ≠ output_path → fs w' !! q = fs w !! q.
Proof.
  intros Hf Hne Hdirs Hout Hdump.
  assert (∃ a, node_at w (path_parent output_path) = Some (NDir a)) as [pa Hparent].
  { destruct (path_parent output_path) as [|c t] eqn:Hp; [by eexists|].
    rewrite Forall_forall in Hdirs. apply Hdirs.
    unfold ancestors_and_self. apply list_elem_of_fmap.
    exists (length (c :: t)). split; [by rewrite firstn_all|].
    apply list_elem_of_In, in_seq. cbn. lia. }
  unfold _save_metadata. unfold bind at 1, mkdir, bind at 1, fault_point. rewrite Hf.
  rewrite (make_dirs_existing _ _ Hdirs).
  unfold try_except, bind at 1, open_write, bind at 1, fault_point. rewrite Hf.
  assert (node_at w output_path = fs w !! output_path) as -> by (by destruct output_path).
  unfold has_suffix_json.
  destruct (fs w !! output_path) as [[old a|a]|] eqn:Hlook; [|done|].
  - rewrite Hout. unfold bind at 1, lift. rewrite Hdump.
    unfold write_bytes, bind, fault_point. cbn [faults set_fs]. rewrite Hf.
    rewrite node_at_set_fs_insert by done.
    eexists _, a. split; [reflexivity|]. cbn.
    rewrite insert_insert_eq, lookup_insert_eq. split; [done|].
    intros q Hq. by rewrite lookup_insert_ne.
  - rewrite Hparent. unfold bind at 1, lift. rewrite Hdump.
    unfold write_bytes, bind, fault_point. cbn [faults set_fs]. rewrite Hf.
    rewrite node_at_set_fs_insert by done.
    eexists _, (new_attr w). split; [reflexivity|]. cbn.
    rewrite insert_insert_eq, lookup_insert_eq. split; [done|].
    intros q Hq. by rewrite lookup_insert_ne.
Qed.

End FacadeProperties.

Lemma process_rejects_invalid_requests_witness :
  ∃ text,
    process (H := example_env) 10 (local "photo.png") (u "strip") None no_options
      (example_world [])
    = (Raise (Exn InvalidInputError text None),
       (log_operation_end (u "strip") false
          (log_operation_start (u "strip") (example_world [])).2).2).
Proof.
  apply (process_rejects_invalid_requests (H := example_env)).
  left. split; vm_compute; discriminate.
Defined.

Lemma save_metadata_writes_serialized_record_witness :
  ∃ w' a, _save_metadata (H := example_env) ∅ [u "album"; u "report.JSON"] (example_world [])
          = (Ok (), w')
          ∧ fs w' !! [u "album"; u "report.JSON"] = Some (NFile [x7b; x7d] a)
          ∧ ∀ q, q ≠ [u "album"; u "report.JSON"] →
                 fs w' !! q = fs (example_world []) !! q.
Proof.
  apply (save_metadata_writes_serialized_record (H := example_env)).
  - reflexivity.
  - discriminate.
  - repeat constructor. exists example_attr. vm_compute. reflexivity.
  - vm_compute. exact I.
  - vm_compute. reflexivity.
Defined.

(* --------------------------------------------------------------------- *)
(** ** The names of derived and temporary outputs *)
(* --------------------------------------------------------------------- *)

Lemma rfind_dot_split (s : pystr) (i : nat) :
  rfind_dot s = Some i →
  ∃ rest, drop i s = dot :: rest ∧ rfind_dot rest = None ∧ length (take i s) = i.
Proof.
  revert i. induction s as [|c t IH]; intros i; [done|]. cbn [rfind_dot].
  destruct (rfind_dot t) as [j|] eqn:Ht.
  - intros [= <-]. destruct (IH j eq_refl) as (rest & Hd & Hr & Hl).
    exists rest. cbn. by rewrite Hl.
  - destruct (c =? dot) eqn:Hc; [|done]. intros [= <-].
    apply N.eqb_eq in Hc as ->. by exists t.
Qed.

Lemma path_name_with_name (p : Path) (name : pystr) :
  path_name (with_name p name) = name.
Proof. unfold path_name, with_name. apply last_last. Qed.

(** X18.  The derived output [<stem>_clean<suffix>] and the in-place
    temporary [<stem>_temp<suffix>] lie in the directory of the source and,
    for a source that has a suffix, carry the same suffix: they are
    classified like the source and written in the format of its
    extension. *)
Theorem sibling_keeps_directory_and_suffix (p : Path) (tag : pystr) :
  path_suffix p ≠ [] → rfind_dot tag = None →
  path_parent (sibling p tag) = path_parent p
  ∧ path_suffix (sibling p tag) = path_suffix p
  ∧ path_stem (sibling p tag) = path_stem p ++ tag
  ∧ ∀ media_type, _is_supported (sibling p tag) media_type = _is_supported p media_type.
Proof.
  intros Hsuf Htag.
  assert (path_parent (sibling p tag) = path_parent p) as Hparent.
  { unfold sibling, with_name, path_parent. apply removelast_last. }
  assert (∃ a rest, a ≠ [] ∧ rest ≠ [] ∧ rfind_dot rest = None
                    ∧ path_stem p = a ∧ path_suffix p = dot :: rest)
    as (a & rest & Ha & Hrest & Hnd & Hstem & Hsuffix).
  { revert Hsuf. unfold path_stem, path_suffix. cbv zeta.
    destruct (rfind_dot (path_name p)) as [i|] eqn:Hi; [|done].
    destruct (_ && _) eqn:Hc; [|done]. intros _.
    apply andb_true_iff in Hc as [Hpos Hlt].
    apply Nat.ltb_lt in Hpos, Hlt.
    destruct (rfind_dot_split _ _ Hi) as (rest & Hd & Hr & Hl).
    exists (take i (path_name p)), rest. repeat split; try done.
    - intros E. rewrite E in Hl. cbn in Hl. lia.
    - intros ->. apply (f_equal length) in Hd. rewrite length_drop in Hd.
      cbn in Hd. lia. }
  assert (path_name (sibling p tag) = (a ++ tag) ++ dot :: rest) as Hname.
  { unfold sibling. rewrite path_name_with_name, Hstem, Hsuffix.
    by rewrite <- app_assoc. }
  assert (rfind_dot (path_name (sibling p tag)) = Some (length (a ++ tag))) as Hfind.
  { rewrite Hname. by apply rfind_dot_app_dotted. }
  assert (path_suffix (sibling p tag) = path_suffix p) as Hsame.
  { unfold path_suffix at 1. cbv zeta. rewrite Hfind, Hname, !length_app. cbn [length].
    assert ((0 <? length a + length tag)%nat = true) as ->.
    { apply Nat.ltb_lt. destruct a; [done|cbn; lia]. }
    assert ((length a + length tag <? length a + length tag + S (length rest) - 1)%nat
            = true) as ->.
    { apply Nat.ltb_lt. destruct rest; [done|cbn; lia]. }
    cbn. rewrite <- length_app, drop_app_length. done. }
  split; [done|]. split; [done|]. split.
  - unfold path_stem at 1. cbv zeta. rewrite Hfind, Hname, !length_app. cbn [length].
    assert ((0 <? length a + length tag)%nat = true) as ->.
    { apply Nat.ltb_lt. destruct a; [done|cbn; lia]. }
    assert ((length a + length tag <? length a + length tag + S (length rest) - 1)%nat
            = true) as ->.
    { apply Nat.ltb_lt. destruct rest; [done|cbn; lia]. }
    cbn. rewrite <- length_app, take_app_length. by rewrite Hstem.
  - intros media_type. unfold _is_supported, _get_extension. by rewrite Hsame.
Qed.

Lemma sibling_keeps_directory_and_suffix_witness :
  path_suffix (sibling [u "album"; u "Photo.v2.JPG"] (u "_clean")) = u ".JPG"
  ∧ path_stem (sibling [u "album"; u "Photo.v2.JPG"] (u "_clean")) = u "Photo.v2_clean".
Proof.
  destruct (sibling_keeps_directory_and_suffix [u "album"; u "Photo.v2.JPG"] (u "_clean"))
    as (_ & Hsuf & Hstem & _).
  - vm_compute. discriminate.
  - vm_compute. reflexivity.
  - split; [exact Hsuf|exact Hstem].
Defined.

(* --------------------------------------------------------------------- *)
(** ** EXIF and GPS tags *)
(* --------------------------------------------------------------------- *)

Lemma rename_tags_snoc table (items : list (TagKey * pyval)) (kv : TagKey * pyval) :
  rename_tags table (items ++ [kv])
  = <[tag_key table kv.1 := kv.2]> (rename_tags table items).
Proof. unfold rename_tags. by rewrite foldl_app. Qed.

Lemma rename_tags_lookup table (items : list (TagKey * pyval)) :
  NoDup (tag_key table <$> items.*1) →
  ∀ key value, (key, value) ∈ items →
    rename_tags table items !! tag_key table key = Some value.
Proof.
  induction items as [|kv items IH] using rev_ind; intros Hnd key value Hin.
  { by apply elem_of_nil in Hin. }
  rewrite fmap_app, fmap_app in Hnd. apply NoDup_app in Hnd as (Hnd & Hfresh & _).
  rewrite rename_tags_snoc. apply elem_of_app in Hin as [Hin|Hin].
  - rewrite lookup_insert_ne; [by apply IH|].
    intros Heq. apply (Hfresh (tag_key table key)).
    + apply list_elem_of_fmap. exists key. split; [done|].
      apply list_elem_of_fmap. by exists (key, value).
    + rewrite <- Heq. cbn. left.
  - apply list_elem_of_singleton in Hin as <-. cbn. by rewrite lookup_insert_eq.
Qed.

Lemma rename_tags_dom table (items : list (TagKey * pyval)) (k : TagKey) :
  is_Some (rename_tags table items !! k) ↔ k ∈ tag_key table <$> items.*1.
Proof.
  induction items as [|kv items IH] using rev_ind.
  { unfold rename_tags. cbn. rewrite lookup_empty, elem_of_nil.
    split; [by intros [? ?]|done]. }
  rewrite rename_tags_snoc, !fmap_app, elem_of_app. cbn.
  rewrite list_elem_of_singleton, lookup_insert. case_decide as Hk.
  - split; [intros _; by right|eauto].
  - rewrite IH. split; [by left|]. intros [?|?]; [done|congruence].
Qed.

(** X19.  Decoding EXIF and GPS tags keeps every tag: each tag of the
    input appears in the result, under its name if the table has one and
    under its number otherwise, and nothing else appears; when no two tags
    share a name, each is found with its own value.  An image without
    [_getexif], or whose [_getexif] returns nothing, gives the empty
    mapping. *)
Theorem decoded_tags_are_all_kept (TAGS GPSTAGS : Z → option pystr)
    (exif : list (Z * pyval)) (gps_info : list (TagKey * pyval)) :
  let exif_data := _extract_exif_data TAGS (Some (Some exif)) in
  let gps_data := _extract_gps_data GPSTAGS gps_info in
  let named tag_id := tag_key TAGS (inr tag_id) in
  (∀ k, is_Some (exif_data !! k) ↔ k ∈ named <$> exif.*1)
  ∧ (NoDup (named <$> exif.*1) →
     ∀ tag_id value, (tag_id, value) ∈ exif → exif_data !! named tag_id = Some value)
  ∧ (∀ tag_id, TAGS tag_id = None → named tag_id = inr tag_id)
  ∧ _extract_exif_data TAGS None = ∅
  ∧ _extract_exif_data TAGS (Some None) = ∅
  ∧ (∀ k, is_Some (gps_data !! k) ↔ k ∈ tag_key GPSTAGS <$> gps_info.*1)
  ∧ (NoDup (tag_key GPSTAGS <$> gps_info.*1) →
     ∀ key value, (key, value) ∈ gps_info →
       gps_data !! tag_key GPSTAGS key = Some value).
Proof.
  cbv zeta.
  assert (_extract_exif_data TAGS (Some (Some exif))
          = rename_tags TAGS ((λ kv : Z * pyval, (inr kv.1, kv.2)) <$> exif)) as ->.
  { by destruct exif. }
  assert (((λ kv : Z * pyval, (inr kv.1 : TagKey, kv.2)) <$> exif).*1
          = inr <$> exif.*1) as Hkeys.
  { rewrite <- !list_fmap_compose. by apply list_fmap_ext. }
  split; [|split; [|split; [|split; [done|split; [done|split]]]]].
  - intros k. rewrite rename_tags_dom, Hkeys, <- list_fmap_compose. done.
  - intros Hnd tag_id value Hin.
    apply (rename_tags_lookup TAGS _) with (key := inr tag_id).
    + by rewrite Hkeys, <- list_fmap_compose.
    + apply list_elem_of_fmap. by exists (tag_id, value).
  - intros tag_id Hnone. cbn. by rewrite Hnone.
  - apply rename_tags_dom.
  - apply rename_tags_lookup.
Qed.

Lemma decoded_tags_are_all_kept_witness :
  let exif := [(271%Z, VStr (u "Canon")); (41999%Z, VInt 7)] in
  _extract_exif_data some_TAGS (Some (Some exif)) !! inl (u "Make")
  = Some (VStr (u "Canon"))
  ∧ _extract_exif_data some_TAGS (Some (Some exif)) !! inr 41999%Z = Some (VInt 7).
Proof.
  cbv zeta.
  pose proof (decoded_tags_are_all_kept some_TAGS some_TAGS
                [(271%Z, VStr (u "Canon")); (41999%Z, VInt 7)] [])
    as (_ & Hfind & _).
  cbv zeta in Hfind.
  assert (NoDup ((λ tag_id, tag_key some_TAGS (inr tag_id))
                   <$> [(271%Z, VStr (u "Canon")); (41999%Z, VInt 7)].*1)) as Hnd.
  { refine (bool_decide_unpack _ _). vm_compute. exact I. }
  split.
  - apply (Hfind Hnd 271%Z). repeat constructor.
  - apply (Hfind Hnd 41999%Z). repeat constructor.
Defined.
(* --------------------------------------------------------------------- *)
(** ** Extraction from a local file *)
(* --------------------------------------------------------------------- *)

Section LocalExtraction.
Context `{Env}.

Lemma extract_with_outcome file_type fields handler (wraps : ExnClass → Prop)
    (path : Path) (w : World) :
  (∀ e w0, ∃ e', handler e w0 = (Raise e', w0) ∧ wraps (exn_class e')) →
  match extract_with file_type fields handler path w with
  | (Ok metadata, w') =>
      w' = w
      ∧ is_Some (metadata !! u "file_type")
      ∧ ∀ info, _file_info w = Some info →
          is_Some (metadata !! u "file_path") ∧ is_Some (metadata !! u "file_size")
          ∧ is_Some (metadata !! u "file_created")
          ∧ is_Some (metadata !! u "file_modified")
  | (Raise e, w') => w' = w ∧ wraps (exn_class e)
  end.
Proof.
  intros Hhandler.
  unfold extract_with, _get_base_metadata, bind, try_except, read_bytes, lift, ret.
  destruct (node_at w path) as [[content a|a]|]; cbn.
  2,3: by edestruct Hhandler as (e' & -> & Hw).
  destruct (fields content) as [found|e]; cbn.
  2: by edestruct Hhandler as (e' & -> & Hw).
  split; [done|].
  assert (∀ k (d : Dict), is_Some (d !! k) →
            is_Some (_clean_metadata_dict (dict_update d found) !! k)) as Hkeep.
  { intros k d Hk. rewrite clean_metadata_dict_fmap, lookup_fmap, fmap_is_Some.
    unfold dict_update. rewrite lookup_union_is_Some. by right. }
  split.
  - apply Hkeep. unfold dict_update. rewrite lookup_union_is_Some. right.
    apply lookup_insert_is_Some. by left.
  - intros info ->.
    repeat split; apply Hkeep; unfold dict_update; rewrite lookup_union_is_Some; left;
      apply (bool_decide_unpack _); by vm_compute.
Qed.

(** X20.  Extraction from a local file only reads.  Whatever the outcome,
    the file system is as before.  A record that is returned always has
    the fields [file_type], [file_path], [file_size], [file_created] and
    [file_modified], and nothing is logged.  Every failure reaches the
    caller as [MediaMetadataError]; the error that caused it is kept as its
    cause and is a [FileOperationError] (validation), an
    [UnsupportedMediaError] (extension or image format) or a
    [MediaMetadataError] (the reader of the file failed). *)
Theorem local_extraction_outcome (source : Source) (w : World) :
  match extract source false w with
  | (Ok metadata, w') =>
      fs w' = fs w ∧ faults w' = faults w ∧ log w' = log w
      ∧ (∃ info, _file_info w' = Some info ∧ info_path info = src_path source)
      ∧ (∀ k, k ∈ [u "file_type"; u "file_path"; u "file_size"; u "file_created";
                   u "file_modified"] → is_Some (metadata !! k))
  | (Raise e, w') =>
      fs w' = fs w ∧ faults w' = faults w
      ∧ exn_class e = MediaMetadataError
      ∧ ∃ cause, exn_cause e = Some cause
                 ∧ exn_class cause ∈ [FileOperationError; UnsupportedMediaError;
                                      MediaMetadataError]
  end.
Proof.
  set (wraps := λ c : ExnClass, c = UnsupportedMediaError ∨ c = MediaMetadataError).
  assert (∀ file_type fields handler info,
            (∀ e w0, ∃ e', handler e w0 = (Raise e', w0) ∧ wraps (exn_class e')) →
            info_path info = src_path source →
            match try_except (extract_with file_type fields handler (src_path source))
                    (λ e, logger_log ERROR (MsgExtractionFailed e) ;;
                          raise (Exn MediaMetadataError "Metadata extraction failed: "
                                   (Some e)))
                    (set_file_info info w) with
            | (Ok metadata, w') =>
                fs w' = fs w ∧ faults w' = faults w ∧ log w' = log w
                ∧ (∃ info, _file_info w' = Some info ∧ info_path info = src_path source)
                ∧ (∀ k, k ∈ [u "file_type"; u "file_path"; u "file_size";
                             u "file_created"; u "file_modified"] →
                        is_Some (metadata !! k))
            | (Raise e, w') =>
                fs w' = fs w ∧ faults w' = faults w
                ∧ exn_class e = MediaMetadataError
                ∧ ∃ cause, exn_cause e = Some cause
                           ∧ exn_class cause ∈ [FileOperationError; UnsupportedMediaError;
                                                MediaMetadataError]
            end) as Hkind.
  { intros file_type fields handler info Hhandler Hpath.
    pose proof (extract_with_outcome file_type fields handler wraps (src_path source)
                  (set_file_info info w) Hhandler) as Hout.
    unfold try_except.
    destruct (extract_with _ _ _ _ _) as [[metadata|e] w1].
    - destruct Hout as (-> & Htype & Hbase).
      destruct (Hbase info eq_refl) as (? & ? & ? & ?).
      repeat split; [by exists info|].
      intros k Hk. rewrite !elem_of_cons, elem_of_nil in Hk.
      by repeat destruct Hk as [->|Hk].
    - destruct Hout as (-> & Hwraps).
      unfold bind, logger_log, raise. cbn.
      split; [by destruct (_ <=? _)%nat|].
      split; [by destruct (_ <=? _)%nat|].
      split; [done|]. exists e. split; [done|].
      destruct Hwraps as [-> | ->]; repeat constructor. }
  destruct (validate_outcome (src_path source) true false w)
    as [(Hv & n & Hn & _)|(text & Hv & _)].
  2:{ unfold extract, _extract_from_file, try_except, bind. rewrite Hv. unfold logger_log, raise. cbn.
      split; [by destruct (_ <=? _)%nat|].
      split; [by destruct (_ <=? _)%nat|].
      split; [done|]. eexists. split; [done|]. repeat constructor. }
  assert (∃ info, _get_file_info (src_path source) w = (Ok info, w)
                  ∧ info_path info = src_path source) as (info & Hinfo & Hpath).
  { unfold _get_file_info, bind, stat, ret. rewrite Hn.
    destruct n; eexists; (split; [reflexivity|done]). }
  assert (_extract_from_file (src_path source) w
          = match classify (_get_extension (src_path source)) with
            | KImage => _extract_image_metadata (src_path source)
            | KPdf => _extract_pdf_metadata (src_path source)
            | KAudioVideo => _extract_av_metadata (src_path source)
            | KUnsupported =>
                raise (Exn UnsupportedMediaError "Unsupported file type: " None)
            end (set_file_info info w)) as Hrun.
  { unfold _extract_from_file. unfold bind at 1. rewrite Hv.
    unfold bind at 1. rewrite Hinfo. reflexivity. }
  change (extract source false w)
    with (try_except (_extract_from_file (src_path source))
            (λ e, logger_log ERROR (MsgExtractionFailed e) ;;
                  raise (Exn MediaMetadataError "Metadata extraction failed: " (Some e))) w).
  unfold try_except at 1. rewrite Hrun. unfold try_except in Hkind.
  destruct (classify (_get_extension (src_path source))).
  - apply Hkind; [|done].
    intros e w0. case_bool_decide; eexists; (split; [reflexivity|]); [by left|by right].
  - apply Hkind; [|done].
    intros e w0. eexists; (split; [reflexivity|]). by right.
  - apply Hkind; [|done].
    intros e w0. eexists; (split; [reflexivity|]). by right.
  - unfold bind, logger_log, raise. cbn.
    split; [by destruct (_ <=? _)%nat|].
    split; [by destruct (_ <=? _)%nat|].
    split; [done|]. eexists. split; [done|]. repeat constructor.
Qed.

End LocalExtraction.

Lemma local_extraction_examples :
  match extract (H := example_env) (local "photo.png") false (example_world []) with
  | (Ok metadata, _) =>
      metadata !! u "file_type" = Some (VStr (u "image"))
      ∧ metadata !! u "file_path" = Some (VStr (u "photo.png"))
      ∧ metadata !! u "file_size" = Some (VInt 8)
  | _ => False
  end
  ∧ match extract (H := example_env) (local "old.png") false (example_world []) with
    | (Raise (Exn MediaMetadataError _ (Some (Exn UnsupportedMediaError _ _))), _) => True
    | _ => False
    end
  ∧ match extract (H := example_env) (local "album") false (example_world []) with
    | (Raise (Exn MediaMetadataError _ (Some (Exn UnsupportedMediaError _ _))), _) => True
    | _ => False
    end.
Proof. vm_compute. done. Qed.

(* --------------------------------------------------------------------- *)
(** ** The record of a URL *)
(* --------------------------------------------------------------------- *)

Section UrlRecord.
Context `{Env}.

(** X21.  The record extracted from a URL names its source: [source_url]
    is the URL as given, and [content_type] is the [Content-Type] of a
    separate HEAD request, or ["unknown"] when that request has no such
    header or fails with a [RequestException].  Both are set after the
    record is cleaned and replace any field of the same name read from the
    file. *)
Theorem url_record_names_its_source (source : Source) (w w' : World) (metadata : Dict) :
  extract source true w = (Ok metadata, w') →
  metadata !! u "source_url" = Some (VStr (src_text source))
  ∧ metadata !! u "content_type"
    = Some (VStr match http_head (src_text source) with
                 | Ok (Some content_type) => content_type
                 | _ => u "unknown"
                 end).
Proof.
  intros Hex.
  assert (∀ (md : Dict) (ct : pystr),
            dict_update md {[ u "source_url" := VStr (src_text source);
                              u "content_type" := VStr ct ]} !! u "source_url"
            = Some (VStr (src_text source))
            ∧ dict_update md {[ u "source_url" := VStr (src_text source);
                                u "content_type" := VStr ct ]} !! u "content_type"
              = Some (VStr ct)) as Hupdate.
  { intros md ct. unfold dict_update. split.
    - apply lookup_union_Some_l. apply lookup_insert_eq.
    - apply lookup_union_Some_l. rewrite lookup_insert_ne by done.
      apply lookup_singleton_eq. }
  unfold extract, try_except, _extract_from_url in Hex. unfold bind at 1 in Hex.
  destruct (_download_url (src_text source) w) as [[temp|e] w1]; [|done].
  unfold try_finally, extract_downloaded in Hex. unfold bind at 1 in Hex.
  destruct (_extract_from_file temp w1) as [[md|e] w2].
  2:{ by destruct (delete_temp_file temp w2) as [[[]|e'] w3]. }
  unfold bind, _get_url_content_type, try_except_if, try_except, bind, lift, ret, raise,
    is_request_exception in Hex.
  destruct (http_head (src_text source)) as [header|e].
  - destruct (delete_temp_file temp w2) as [[[]|e'] w3]; [|done].
    injection Hex as <- <-. destruct header; apply Hupdate.
  - case_bool_decide.
    + destruct (delete_temp_file temp w2) as [[[]|e'] w3]; [|done].
      injection Hex as <- <-. apply Hupdate.
    + by destruct (delete_temp_file temp w2) as [[[]|e'] w3].
Qed.

End UrlRecord.

Lemma url_record_names_its_source_witness :
  match extract (H := example_env)
          {| src_path := []; src_text := u "https://example.com/a.png" |}
          true (example_world []) with
  | (Ok metadata, _) =>
      metadata !! u "source_url" = Some (VStr (u "https://example.com/a.png"))
      ∧ metadata !! u "content_type" = Some (VStr (u "image/png"))
  | _ => False
  end.
Proof.
  assert (match (extract (H := example_env)
                     {| src_path := []; src_text := u "https://example.com/a.png" |}
                     true (example_world [])).1 with
          | Ok _ => true
          | Raise _ => false
          end = true) as Hok by (vm_compute; reflexivity).
  destruct (extract _ _ _) as [[metadata|e] w'] eqn:Hex; [|discriminate Hok].
  exact (url_record_names_its_source (H := example_env) _ _ _ _ Hex).
Defined.
(* --------------------------------------------------------------------- *)
(** ** Entering a directory batch *)
(* --------------------------------------------------------------------- *)

Section DirectoryEntry.
Context `{Env}.

(** X22.  A directory batch fails before it changes anything when it
    cannot start: on a path that does not exist or cannot be read it
    raises [FileOperationError], on a readable regular file
    [InvalidInputError], and when the output path (given, or the default
    [clean_metadata]) is an existing regular file (and no system call is
    made to fail otherwise) the [FileExistsError] of [mkdir] reaches the
    caller as it is.  In each case the world is left as it was. *)
Theorem directory_batch_entry_errors (depth : nat) (directory : Path)
    (output_dir : option Path) (recursive : bool) (w : World) :
  let batch := remove_metadata_from_directory (S depth) directory output_dir recursive w in
  let unreadable := Exn FileOperationError "No read permission for: " None in
  match node_at w directory with
  | None => batch = (Raise (Exn FileOperationError "Path does not exist: " None), w)
  | Some (NFile _ a) =>
      batch = (Raise (if readable a
                      then Exn InvalidInputError "Path is not a directory: " None
                      else unreadable), w)
  | Some (NDir a) =>
      if readable a then
        match faults w, node_at w (output_root directory output_dir) with
        | [], Some (NFile _ _) => batch = (Raise (os_error FileExistsError), w)
        | _, _ => True
        end
      else batch = (Raise unreadable, w)
  end.
Proof.
  cbv zeta. cbn [remove_metadata_from_directory].
  unfold open_directory, output_root, _validate_file, bind, path_exists, access_R, access_W,
    is_dir, mkdir, fault_point, raise, ret.
  destruct (node_at w directory) as [[data a|a]|] eqn:Hn.
  - rewrite bool_decide_eq_true_2 by eauto.
    destruct (readable a) eqn:Hr;
      repeat (first [rewrite Hn | rewrite Hr | progress cbn [negb andb node_attr]]); done.
  - rewrite bool_decide_eq_true_2 by eauto.
    destruct (readable a) eqn:Hr.
    2:{ repeat (first [rewrite Hn | rewrite Hr | progress cbn [negb andb node_attr]]).
        done. }
    destruct (faults w) eqn:Hf; [|done].
    destruct (node_at w (default _ output_dir)) as [[data' a'|a']|] eqn:Ho; [|done..].
    repeat (first [rewrite Hn | rewrite Hr | rewrite Hf | rewrite Ho
                  | progress cbn [negb andb node_attr make_dirs]
                  | progress unfold bind]).
    done.
  - rewrite bool_decide_eq_false_2 by (by intros [? ?]). done.
Qed.

End DirectoryEntry.

Lemma directory_batch_entry_examples :
  (remove_metadata_from_directory (H := example_env) 5 [u "photo.png"] None true
     (example_world [])).1
  = Raise (Exn InvalidInputError "Path is not a directory: " None)
  ∧ (remove_metadata_from_directory (H := example_env) 5 [u "album"]
       (Some [u "notes.txt"]) false (example_world [])).1
    = Raise (os_error FileExistsError)
  ∧ (remove_metadata_from_directory (H := example_env) 5 [u "missing"] None false
       (example_world [])).1
    = Raise (Exn FileOperationError "Path does not exist: " None).
Proof. vm_compute. done. Qed.
(* --------------------------------------------------------------------- *)
(** ** What [process] returns *)
(* --------------------------------------------------------------------- *)

Section ProcessResult.
Context `{Env}.

Lemma node_at_after_start (operation : pystr) (w : World) (p : Path) :
  node_at (log_operation_start operation w).2 p = node_at w p.
Proof.
  unfold log_operation_start, logger_log. cbn [snd].
  by destruct (_ <=? _)%nat, p.
Qed.

(** X23.  [process] never returns [None], and what it returns is decided
    by the request: a record for "extract"; for "remove" a list of paths
    when the source is a directory and a single path when it is a regular
    file.  A removal that returns was not asked of a URL. *)
Theorem process_result_matches_request (depth : nat) (source : Source)
    (operation : pystr) (output : option Path) (kwargs : Options)
    (w w' : World) (result : option Processed) :
  process depth source operation output kwargs w = (Ok result, w') →
  match result with
  | None => False
  | Some (PMetadata _) => operation = u "extract"
  | Some (PPaths _) =>
      operation = u "remove" ∧ is_url kwargs = false
      ∧ ∃ a, node_at w (src_path source) = Some (NDir a)
  | Some (PPath _) =>
      operation = u "remove" ∧ is_url kwargs = false
      ∧ ∃ data a, node_at w (src_path source) = Some (NFile data a)
  end.
Proof.
  intros Hproc.
  pose proof (process_markers depth source operation output kwargs w) as Hm.
  cbv zeta in Hm.
  pose proof (node_at_after_start operation w (src_path source)) as Hnode.
  destruct (process_body _ _ _ _ _ _) as [[|r|e] w1] eqn:Hbody; [done| |congruence].
  rewrite Hm in Hproc. injection Hproc as <- <-. clear Hm.
  revert Hbody. unfold process_body.
  repeat case_bool_decide.
  - unfold assign, then_, return_, exec, ret.
    destruct (extract _ _ _) as [[metadata|e] w2]; [|done].
    destruct output as [out|].
    + destruct (_save_metadata metadata out w2) as [[[]|e] w3]; [|done].
      by intros [= <- _].
    + by intros [= <- _].
  - unfold assign, then_, return_, exec, raise, ret, is_dir.
    destruct (is_url kwargs); [done|]. rewrite Hnode.
    destruct (node_at w (src_path source)) as [[data a|a]|] eqn:Hn.
    + unfold bind.
      destruct (remove_metadata _ _ _ _) as [[p|e] w2]; [|done].
      intros [= <- _]. eauto.
    + unfold bind.
      destruct (remove_metadata_from_directory _ _ _ _ _) as [[ps|e] w2]; [|done].
      intros [= <- _]. eauto.
    + unfold bind.
      destruct (remove_metadata _ _ _ _) as [[p|e] w2] eqn:Hrm; [|done].
      exfalso. revert Hrm. unfold remove_metadata. unfold bind at 1.
      destruct (validate_outcome (src_path source) true (in_place kwargs)
                  (log_operation_start operation w).2)
        as [(_ & n & Hn' & _)|(text & -> & _)]; [|done].
      rewrite Hnode in Hn'. congruence.
  - done.
Qed.

End ProcessResult.

Lemma process_result_matches_request_witness :
  match process (H := example_env) 5 (local "album") (u "remove") None no_options
          (example_world []) with
  | (Ok (Some (PPaths _)), _) =>
      ∃ a, node_at (example_world []) [u "album"] = Some (NDir a)
  | _ => False
  end.
Proof.
  assert (match (process (H := example_env) 5 (local "album") (u "remove") None no_options
                   (example_world [])).1 with
          | Ok (Some (PPaths _)) => true
          | _ => false
          end = true) as Hok by (vm_compute; reflexivity).
  destruct (process _ _ _ _ _ _) as [[[[metadata|p|ps]|]|e] w'] eqn:Hproc;
    try discriminate Hok.
  exact (proj2 (proj2 (process_result_matches_request (H := example_env)
                         _ _ _ _ _ _ _ _ Hproc))).
Defined.
